(** * GSMArena scraper: the normalisation engine, the crawl ledger, the
      batch loop, the page extractor and the link finder of [my.py],
      embedded in Rocq.

    Conventions of the embedding.
    - A Python [str] is a [string]; a character is a code point below
      U+0100 (so ["160"%char] is the non-breaking space [\xa0]).  The
      character classes and case mappings below are the ones CPython
      applies to those code points.
    - The raw record's [specs] is a [gmap string (gmap string string)]:
      the normaliser only reads it, through [dict.get].
    - The dictionaries the normaliser builds are insertion-ordered
      association lists ([pydict]), because their key order is what
      [json.dump] writes.
    - Code that can raise returns a [result]; [Raise] carries the Python
      exception class. *)

From Stdlib Require Import Ascii String NArith Lia.
From stdpp Require Import base option list gmap strings.

(* ================================================================== *)
(** * Python values and exceptions *)

Inductive exn : Type :=
| IndexError       (* a list index out of range *)
| TypeError        (* [None] used where a [str] is needed *)
| OSError.         (* a failed file operation *)

Inductive result (A : Type) : Type :=
| Ok (a : A)
| Raise (e : exn).
Arguments Ok {A} a.
Arguments Raise {A} e.

#[global] Instance result_ret : MRet result := fun A a => Ok a.
#[global] Instance result_bind : MBind result := fun A B f r =>
  match r with
  | Ok a => f a
  | Raise e => Raise e
  end.

(** [l[i]] for a non-negative literal index. *)
Definition list_index {A} (l : list A) (i : nat) : result A :=
  match l !! i with
  | Some x => Ok x
  | None => Raise IndexError
  end.

(** A value that may be [None], used as a [str]. *)
Definition as_str (o : option string) : result string :=
  match o with
  | Some x => Ok x
  | None => Raise TypeError
  end.

(* ================================================================== *)
(** * Python [str] on code points below U+0100 *)

Definition nbsp : string := String "160"%char "".

(** [str.isspace] on one character, also the class [\s] of [re]. *)
Definition isspace (c : ascii) : bool :=
  let n := N_of_ascii c in
  ((9 <=? n) && (n <=? 13) || (28 <=? n) && (n <=? 32)
   || (n =? 133) || (n =? 160))%N.

(** The class [\d] of [re]: the decimal digits. *)
Definition isdigit (c : ascii) : bool :=
  let n := N_of_ascii c in ((48 <=? n) && (n <=? 57))%N.

Definition lower_char (c : ascii) : ascii :=
  let n := N_of_ascii c in
  if ((65 <=? n) && (n <=? 90)
      || (192 <=? n) && (n <=? 222) && negb (n =? 215))%N
  then ascii_of_N (n + 32) else c.

(** [str.lower]. *)
Fixpoint str_lower (s : string) : string :=
  match s with
  | "" => ""
  | String c s' => String (lower_char c) (str_lower s')
  end.

(** [str.upper].  The sharp s becomes "SS"; the micro sign and the y with
    diaeresis, whose capitals lie beyond U+00FF, are left as they are: the
    normaliser applies [upper] only to text matched by [f/\d+(\.\d+)?]. *)
Definition upper_char (c : ascii) : string :=
  let n := N_of_ascii c in
  if ((97 <=? n) && (n <=? 122)
      || (224 <=? n) && (n <=? 254) && negb (n =? 247))%N
  then String (ascii_of_N (n - 32)) ""
  else if (n =? 223)%N then "SS" else String c "".

Fixpoint str_upper (s : string) : string :=
  match s with
  | "" => ""
  | String c s' => upper_char c +:+ str_upper s'
  end.

(** Truth value of a string: non-empty. *)
Definition truthy (s : string) : bool :=
  match s with "" => false | _ => true end.

(** [a or b] on strings. *)
Definition py_or (a b : string) : string := if truthy a then a else b.

(** [a in [x, y, ...]] on strings. *)
Definition str_in_list (a : string) (l : list string) : bool :=
  existsb (String.eqb a) l.

(** [sub in s]. *)
Fixpoint str_contains (sub s : string) : bool :=
  String.prefix sub s ||
  match s with
  | "" => false
  | String _ s' => str_contains sub s'
  end.

Fixpoint lstrip_by (p : ascii -> bool) (s : string) : string :=
  match s with
  | "" => ""
  | String c s' => if p c then lstrip_by p s' else s
  end.

Fixpoint rstrip_by (p : ascii -> bool) (s : string) : string :=
  match s with
  | "" => ""
  | String c s' =>
      match rstrip_by p s' with
      | "" => if p c then "" else String c ""
      | r => String c r
      end
  end.

Definition strip_by (p : ascii -> bool) (s : string) : string :=
  rstrip_by p (lstrip_by p s).

Fixpoint char_in (chars : string) (c : ascii) : bool :=
  match chars with
  | "" => false
  | String d chars' => Ascii.eqb c d || char_in chars' c
  end.

(** [s.strip()]. *)
Definition str_strip (s : string) : string := strip_by isspace s.

(** [s.strip(chars)]. *)
Definition str_strip_chars (chars s : string) : string :=
  strip_by (char_in chars) s.

(** [s.split(sep)] for a one-character separator, the only use in the
    source; the result is never empty. *)
Fixpoint str_split (sep : ascii) (s : string) : list string :=
  match s with
  | "" => [""]
  | String c s' =>
      if Ascii.eqb c sep then "" :: str_split sep s'
      else match str_split sep s' with
           | h :: t => String c h :: t
           | [] => [String c ""]
           end
  end.

(** [sep.join(l)]. *)
Fixpoint str_join (sep : string) (l : list string) : string :=
  match l with
  | [] => ""
  | [x] => x
  | x :: l' => x +:+ sep +:+ str_join sep l'
  end.

(** [s.replace(old, new)]: the non-overlapping occurrences of [old], found
    from the left, become [new].  [skip] counts the characters of an
    occurrence still to be passed over. *)
Fixpoint replace_go (old new : string) (skip : nat) (s : string) : string :=
  match s with
  | "" => ""
  | String c s' =>
      match skip with
      | S k => replace_go old new k s'
      | O =>
          if String.prefix old s
          then new +:+ replace_go old new (String.length old - 1) s'
          else String c (replace_go old new 0 s')
      end
  end.

Fixpoint intersperse (new s : string) : string :=
  match s with
  | "" => new
  | String c s' => new +:+ String c (intersperse new s')
  end.

Definition str_replace (old new s : string) : string :=
  match old with
  | "" => intersperse new s
  | _ => replace_go old new 0 s
  end.

(** The first [n] characters. *)
Definition str_take (n : nat) (s : string) : string := String.substring 0 n s.

(* ================================================================== *)
(** * Insertion-ordered dictionaries *)

Definition pydict (V : Type) : Type := list (string * V).

(** [d[k] = v]: overwrite in place, or append a new key. *)
Fixpoint dict_set {V} (d : pydict V) (k : string) (v : V) : pydict V :=
  match d with
  | [] => [(k, v)]
  | (k', v') :: d' =>
      if String.eqb k' k then (k, v) :: d' else (k', v') :: dict_set d' k v
  end.

Fixpoint dict_lookup {V} (d : pydict V) (k : string) : option V :=
  match d with
  | [] => None
  | (k', v') :: d' => if String.eqb k' k then Some v' else dict_lookup d' k
  end.

Definition dict_keys {V} (d : pydict V) : list string := d.*1.

(** [m.get(k, default)] on the raw record's maps. *)
Definition dict_get {V} (m : gmap string V) (k : string) (default : V) : V :=
  match m !! k with
  | Some v => v
  | None => default
  end.

(* ================================================================== *)
(** * The fragment of [re] the source uses

    Patterns are abstract syntax; matching is backtracking with the
    alternatives kept in the order in which CPython's engine tries them
    (greedy repetition first), so the head of the list is the match that
    [re] reports. *)

Inductive regex : Type :=
| Chr (a : ascii)              (* a literal character *)
| Digit                        (* [\d] *)
| Space                        (* [\s] *)
| Eps                          (* the empty pattern *)
| Seq (r1 r2 : regex)
| Alt (r1 r2 : regex)          (* [r1|r2] *)
| Star (r : regex)             (* [r*] *)
| Plus (r : regex)             (* [r+] *)
| Opt (r : regex)              (* [r?] *)
| Group (n : nat) (r : regex). (* the [n]-th capturing group *)

(** A run of literal characters. *)
Fixpoint Lit (s : string) : regex :=
  match s with
  | "" => Eps
  | String c "" => Chr c
  | String c s' => Seq (Chr c) (Lit s')
  end.

Declare Scope regex_scope.
Delimit Scope regex_scope with re.
Bind Scope regex_scope with regex.
Infix "⋅" := Seq (at level 41, right associativity) : regex_scope.

(** A state of the matcher: the input still to read and the groups set. *)
Definition mstate : Type := string * gmap nat string.

(** A literal under [re.IGNORECASE] ([ic]) or not. *)
Definition char_matches (ic : bool) (a x : ascii) : bool :=
  if ic then Ascii.eqb (lower_char x) (lower_char a) else Ascii.eqb x a.

Definition one_char (p : ascii -> bool) (s : string) (c : gmap nat string)
  : list mstate :=
  match s with
  | String x s' => if p x then [(s', c)] else []
  | "" => []
  end.

(** What was read between input [s] and its suffix [s']. *)
Definition consumed (s s' : string) : string :=
  str_take (String.length s - String.length s') s.

(** Greedy repetition of [step]; an iteration has to read something. *)
Fixpoint star_go (step : string -> gmap nat string -> list mstate)
    (fuel : nat) (s : string) (c : gmap nat string) : list mstate :=
  match fuel with
  | O => [(s, c)]
  | S n =>
      (st ← step s c;
       if decide (String.length st.1 < String.length s)%nat
       then star_go step n st.1 st.2 else [])
      ++ [(s, c)]
  end.

Fixpoint rmatch (ic : bool) (r : regex) (s : string) (c : gmap nat string)
  : list mstate :=
  match r with
  | Chr a => one_char (char_matches ic a) s c
  | Digit => one_char isdigit s c
  | Space => one_char isspace s c
  | Eps => [(s, c)]
  | Seq r1 r2 => st ← rmatch ic r1 s c; rmatch ic r2 st.1 st.2
  | Alt r1 r2 => rmatch ic r1 s c ++ rmatch ic r2 s c
  | Star r' => star_go (rmatch ic r') (String.length s) s c
  | Plus r' =>
      st ← rmatch ic r' s c;
      star_go (rmatch ic r') (String.length st.1) st.1 st.2
  | Opt r' => rmatch ic r' s c ++ [(s, c)]
  | Group n r' =>
      (λ st : mstate, (st.1, <[n := consumed s st.1]> st.2)) <$> rmatch ic r' s c
  end.

(** A match object: [group(0)], the numbered groups, and the input after
    the end of the match. *)
Record match_obj : Type := MatchObj {
  mo_text : string;
  mo_groups : gmap nat string;
  mo_rest : string
}.

(** [m.group(0)]. *)
Definition group0 (m : match_obj) : string := mo_text m.

(** [m.group(n)] for [n > 0], used as a [str].  In Python a group that
    took no part in the match is [None]; the source uses group values as
    strings only, so such a use is an error here. *)
Definition group (m : match_obj) (n : nat) : result string :=
  as_str (mo_groups m !! n).

(** [re.search(r, s)]: the first position from which [r] matches. *)
Fixpoint re_search_flags (ic : bool) (r : regex) (s : string)
  : option match_obj :=
  match rmatch ic r s ∅ with
  | st :: _ => Some (MatchObj (consumed s st.1) st.2 st.1)
  | [] =>
      match s with
      | "" => None
      | String _ s' => re_search_flags ic r s'
      end
  end.

Definition re_search (r : regex) (s : string) : option match_obj :=
  re_search_flags false r s.

Definition re_search_ignorecase (r : regex) (s : string) : option match_obj :=
  re_search_flags true r s.

(** The successive non-overlapping matches, as [re.finditer] yields them.
    After an empty match the scan moves one character on; no pattern of the
    source can match the empty string. *)
Fixpoint finditer_go (fuel : nat) (r : regex) (s : string) : list match_obj :=
  match fuel with
  | O => []
  | S n =>
      match re_search r s with
      | None => []
      | Some m =>
          m :: match mo_text m, mo_rest m with
               | "", "" => []
               | "", String _ t => finditer_go n r t
               | _, t => finditer_go n r t
               end
      end
  end.

(** [re.findall(r, s)] for a pattern with two groups: the pairs of group
    texts, an unset group giving the empty string. *)
Definition re_findall2 (r : regex) (s : string) : list (string * string) :=
  (λ m, (default "" (mo_groups m !! 1), default "" (mo_groups m !! 2)))
    <$> finditer_go (S (String.length s)) r s.

(** ** The patterns of [transform_gsmarena_to_formatted] *)

(** [f/\d+(\.\d+)?] *)
Definition aperture_re : regex :=
  (Lit "f/" ⋅ Plus Digit ⋅ Opt (Group 1 (Chr "." ⋅ Plus Digit)))%re.

(** [\d+\s*mm] *)
Definition focal_length_re : regex :=
  (Plus Digit ⋅ Star Space ⋅ Lit "mm")%re.

(** [(\d+\s*mAh)] *)
Definition capacity_re : regex :=
  Group 1 (Plus Digit ⋅ Star Space ⋅ Lit "mAh")%re.

(** [(\d+(\.\d+)?W)\s+wired] *)
Definition wired_speed_re : regex :=
  (Group 1 (Plus Digit ⋅ Opt (Group 2 (Chr "." ⋅ Plus Digit)) ⋅ Chr "W")
   ⋅ Plus Space ⋅ Lit "wired")%re.

(** [(\d+(\.\d+)?W)\s+wireless] *)
Definition wireless_speed_re : regex :=
  (Group 1 (Plus Digit ⋅ Opt (Group 2 (Chr "." ⋅ Plus Digit)) ⋅ Chr "W")
   ⋅ Plus Space ⋅ Lit "wireless")%re.

(** [(\d+Hz)] *)
Definition refresh_rate_re : regex :=
  Group 1 (Plus Digit ⋅ Lit "Hz")%re.

(** [(\d+(\.\d+)?%)\s*\(screen-to-body ratio\)] *)
Definition s2b_re : regex :=
  (Group 1 (Plus Digit ⋅ Opt (Group 2 (Chr "." ⋅ Plus Digit)) ⋅ Chr "%")
   ⋅ Star Space ⋅ Lit "(screen-to-body ratio)")%re.

(** [(\d+)\s*nits\s*\(peak\)] *)
Definition brightness_re : regex :=
  (Group 1 (Plus Digit) ⋅ Star Space ⋅ Lit "nits" ⋅ Star Space
   ⋅ Lit "(peak)")%re.

(** [(\d+\s*(?:GB|TB))\s+(\d+\s*GB)\s+RAM] *)
Definition storage_ram_re : regex :=
  (Group 1 (Plus Digit ⋅ Star Space ⋅ Alt (Lit "GB") (Lit "TB"))
   ⋅ Plus Space ⋅ Group 2 (Plus Digit ⋅ Star Space ⋅ Lit "GB")
   ⋅ Plus Space ⋅ Lit "RAM")%re.

(** [(\d+\s*(?:GB|TB))] *)
Definition storage_re : regex :=
  Group 1 (Plus Digit ⋅ Star Space ⋅ Alt (Lit "GB") (Lit "TB"))%re.

(** [(\d+\s*GB)\s+RAM] *)
Definition ram_re : regex :=
  (Group 1 (Plus Digit ⋅ Star Space ⋅ Lit "GB") ⋅ Plus Space ⋅ Lit "RAM")%re.

(* ================================================================== *)
(** * The raw record and the normaliser *)

(** What [scrape_device] returns: [{"url", "name", "image", "highlights",
    "specs"}].  [raw_specs] is [None] when the key is missing, which
    [data.get("specs", {})] tolerates. *)
Record raw_record : Type := RawRecord {
  raw_url : string;
  raw_name : string;
  raw_image : option string;
  raw_highlights : list string;
  raw_specs : option (gmap string (gmap string string))
}.

(** The inner helper [get_spec(category, key, default="")]. *)
Definition get_spec (data : raw_record) (category key dflt : string) : string :=
  let key := str_replace "  " nbsp key in
  dict_get (dict_get (default ∅ (raw_specs data)) category ∅) key dflt.

Definition newline : ascii := "010"%char.

Section Normaliser.
Variable data : raw_record.

(** [# --- Camera ---] *)
(** The descriptor of the rear camera module (the local variable of
    that name). *)
Definition main_cam_spec : string :=
  py_or (py_or (py_or (get_spec data "MAIN CAMERA" "Triple" "")
                      (get_spec data "MAIN CAMERA" "Quad" ""))
               (get_spec data "MAIN CAMERA" "Dual" ""))
        (get_spec data "MAIN CAMERA" "Single" "").

Definition camera_section : result (pydict string) :=
  let camera_data :=
    [ ("Rear:", "");
      ("Flash:", get_spec data "MAIN CAMERA" "Features" "");
      ("Front:", py_or (get_spec data "SELFIE CAMERA" "Single" "")
                       (get_spec data "SELFIE CAMERA" "Dual" ""));
      ("Folded:", "");
      ("Main camera:", "");
      ("Second camera:", "");
      ("Third camera:", "");
      ("Specifications:", "");
      ("Video recording:", get_spec data "MAIN CAMERA" "Video" "") ] in
  if truthy main_cam_spec then
    rear ← list_index (str_split newline main_cam_spec) 0;
    let camera_data := dict_set camera_data "Rear:" rear in
    let cam_specs := str_strip <$> str_split newline main_cam_spec in
    camera_data ←
      (if decide (0 < length cam_specs)
       then x ← list_index cam_specs 0;
            mret (dict_set camera_data "Main camera:" x)
       else mret camera_data);
    camera_data ←
      (if decide (1 < length cam_specs)
       then x ← list_index cam_specs 1;
            mret (dict_set camera_data "Second camera:" x)
       else mret camera_data);
    camera_data ←
      (if decide (2 < length cam_specs)
       then x ← list_index cam_specs 2;
            mret (dict_set camera_data "Third camera:" x)
       else mret camera_data);
    if decide (0 < length cam_specs) then
      x ← list_index cam_specs 0;
      let aperture_match := re_search aperture_re x in
      y ← list_index cam_specs 0;
      let focal_length_match := re_search focal_length_re y in
      let specs_str := [] in
      let specs_str :=
        match aperture_match with
        | Some m => specs_str ++ ["Aperture size: " +:+ str_upper (group0 m)]
        | None => specs_str
        end in
      let specs_str :=
        match focal_length_match with
        | Some m => specs_str ++ ["Focal Length: " +:+ group0 m]
        | None => specs_str
        end in
      mret (dict_set camera_data "Specifications:" (str_join " " specs_str))
    else mret camera_data
  else mret camera_data.

(** [# --- Design ---] *)
Definition design_section : pydict string :=
  [ ("Keys:", "Right: Volume control, Lock/Unlock key");
    ("Colors:", get_spec data "MISC" "Colors" "");
    ("Folded:", get_spec data "BODY" "Folded" "");
    ("Weight:", get_spec data "BODY" "Weight" "");
    ("Materials:", get_spec data "BODY" "Build" "");
    ("Biometrics:", get_spec data "FEATURES" "Sensors" "");
    ("Dimensions:", get_spec data "BODY" "Dimensions" "");
    ("Resistance:", py_or (get_spec data "BODY" "  " "")
                          (get_spec data "BODY" "" "")) ].

(** [# --- Battery ---] *)
Definition battery_section : result (pydict string) :=
  let battery_type_str := get_spec data "BATTERY" "Type" "" in
  let capacity_match := re_search capacity_re battery_type_str in
  capacity ←
    match capacity_match with
    | Some m => g ← group m 1; mret (str_strip g)
    | None => mret ""
    end;
  let type_info :=
    match capacity_match with
    | Some m =>
        str_strip_chars ", " (str_replace (group0 m) "" battery_type_str)
    | None => battery_type_str
    end in
  let battery_data :=
    [ ("Type:", if str_contains "non-removable" (str_lower type_info)
                then type_info +:+ ", Not user replaceable"
                else type_info);
      ("Capacity:", capacity);
      ("Charging:", get_spec data "BATTERY" "Charging" "");
      ("Max charge speed:", "") ] in
  let charging_str := get_spec data "BATTERY" "Charging" "" in
  let wired_speed_match := re_search_ignorecase wired_speed_re charging_str in
  let wireless_speed_match :=
    re_search_ignorecase wireless_speed_re charging_str in
  let speeds := [] in
  speeds ←
    match wired_speed_match with
    | Some m => g ← group m 1; mret (speeds ++ ["Wired: " +:+ g])
    | None => mret speeds
    end;
  speeds ←
    match wireless_speed_match with
    | Some m => g ← group m 1; mret (speeds ++ ["Wireless: " +:+ g])
    | None => mret speeds
    end;
  mret (dict_set battery_data "Max charge speed:" (str_join "" speeds)).

(** [# --- Display ---] *)
Definition display_section : result (pydict string) :=
  size0 ← list_index (str_split "," (get_spec data "DISPLAY" "Size" "")) 0;
  type0 ← list_index (str_split "," (get_spec data "DISPLAY" "Type" "")) 0;
  let display_data :=
    [ ("Size:", str_strip size0);
      ("Features:", get_spec data "FEATURES" "Sensors" "");
      ("Resolution:", get_spec data "DISPLAY" "Resolution" "");
      ("Technology:", type0);
      ("Refresh rate:", "");
      ("Screen-to-body:", "");
      ("Peak brightness:", "");
      ("Front cover display:",
         py_or (get_spec data "DISPLAY" "Secondary display" "") "") ] in
  let display_type_str := get_spec data "DISPLAY" "Type" "" in
  let refresh_rate_match := re_search refresh_rate_re display_type_str in
  display_data ←
    match refresh_rate_match with
    | Some m => g ← group m 1; mret (dict_set display_data "Refresh rate:" g)
    | None => mret display_data
    end;
  let size_str := get_spec data "DISPLAY" "Size" "" in
  let s2b_match := re_search s2b_re size_str in
  display_data ←
    match s2b_match with
    | Some m =>
        g ← group m 1;
        mret (dict_set display_data "Screen-to-body:" (g +:+ " %"))
    | None => mret display_data
    end;
  let brightness_match :=
    re_search_ignorecase brightness_re display_type_str in
  match brightness_match with
  | Some m =>
      g ← group m 1;
      mret (dict_set display_data "Peak brightness:" (g +:+ " cd/m2 (nit)"))
  | None => mret display_data
  end.

(** [# --- Cellular (UPDATED SECTION) ---] *)
Definition cellular_section : pydict string :=
  [ ("Technology:", get_spec data "NETWORK" "Technology" "");
    ("2G bands:", get_spec data "NETWORK" "2G bands" "");
    ("3G bands:", get_spec data "NETWORK" "3G bands" "");
    ("4G bands:", get_spec data "NETWORK" "4G bands" "");
    ("5G bands:", get_spec data "NETWORK" "5G bands" "");
    ("SIM type:", get_spec data "BODY" "SIM" "") ].

(** [# --- Hardware ---] *)
Definition hardware_section : result (pydict string) :=
  let internal_mem := get_spec data "MEMORY" "Internal" "" in
  let storage_ram_pairs := re_findall2 storage_ram_re internal_mem in
  sr ←
    match storage_ram_pairs with
    | _ :: _ =>
        p0 ← list_index storage_ram_pairs 0;
        p1 ← list_index storage_ram_pairs 0;
        mret (p0.1, p1.2)
    | [] =>
        let storage_match := re_search storage_re internal_mem in
        let ram_match := re_search ram_re internal_mem in
        storage ←
          match storage_match with
          | Some m => group m 1
          | None => mret ""
          end;
        ram ←
          match ram_match with
          | Some m => group m 1
          | None => mret ""
          end;
        mret (storage, ram)
    end;
  let storage := sr.1 in
  let ram := sr.2 in
  mret
    [ ("OS:", get_spec data "PLATFORM" "OS" "");
      ("GPU:", get_spec data "PLATFORM" "GPU" "");
      ("RAM:", ram);
      ("Processor:", get_spec data "PLATFORM" "Chipset" "");
      ("Device type:", "Smartphone");
      ("Internal storage:",
         if str_in_list (str_lower (get_spec data "MEMORY" "Card slot" ""))
              ["no"; ""]
         then storage +:+ " (UFS), not expandable"
         else storage +:+ " (UFS)") ].

(** [# --- Multimedia ---] *)
Definition multimedia_section : pydict string :=
  [ ("Speakers:", get_spec data "SOUND" "Loudspeaker" "");
    ("Headphones:", get_spec data "SOUND" "3.5mm jack" "");
    ("Screen mirroring:", "Wireless screen share");
    ("Additional microphone(s):",
       if str_contains "dedicated mic"
            (str_lower (get_spec data "SOUND" "  " ""))
       then "Noise cancellation" else "") ].

(** [# --- Connectivity & Features ---] *)
Definition connectivity_section : pydict string :=
  let other_features := [] in
  let other_features :=
    if truthy (get_spec data "COMMS" "NFC" "")
    then other_features ++ ["NFC"] else other_features in
  let other_features :=
    if truthy (get_spec data "COMMS" "Infrared port" "")
    then other_features ++ ["Infrared"] else other_features in
  [ ("USB:", get_spec data "COMMS" "USB" "");
    ("Other:", str_join ", " other_features);
    ("Wi-Fi:", get_spec data "COMMS" "WLAN" "");
    ("Sensors:", get_spec data "FEATURES" "Sensors" "");
    ("Features:", get_spec data "COMMS" "USB" "");
    ("Location:", get_spec data "COMMS" "Positioning" "");
    ("Bluetooth:", get_spec data "COMMS" "Bluetooth" "") ].

(** [# --- Final JSON Structure ---] *)
Definition transform_gsmarena_to_formatted
  : result (pydict (pydict string)) :=
  camera_data ← camera_section;
  let design_data := design_section in
  battery_data ← battery_section;
  display_data ← display_section;
  let cellular_data := cellular_section in
  hardware_data ← hardware_section;
  let multimedia_data := multimedia_section in
  let connectivity_data := connectivity_section in
  let formatted_data :=
    [ ("Camera", camera_data);
      ("Design", design_data);
      ("Battery", battery_data);
      ("Display", display_data);
      ("Cellular", cellular_data);
      ("Hardware", hardware_data);
      ("Multimedia", multimedia_data);
      ("Connectivity & Features", connectivity_data) ] in
  mret formatted_data.
End Normaliser.

(* ================================================================== *)
(** * The crawl ledger [scraped_devices.csv]

    The file is modelled by what [csv.reader] yields from it: [None] when
    the file does not exist, otherwise its rows (no row at all for an
    empty file).  [csv.writer.writerow] adds one row at the end. *)

Definition csv_file : Type := option (list (list string)).

Definition load_scraped_links_from_csv (f : csv_file) : gset string :=
  match f with
  | None => ∅                                (* not os.path.exists *)
  | Some [] => ∅                             (* next(reader): StopIteration *)
  | Some (_ :: reader) =>
      list_to_set
        (omap (λ row : list string, row !! 1)
              (filter (λ row : list string, 1 < length row) reader))
  end.

Definition append_to_csv (device_name url : string) (f : csv_file) : csv_file :=
  let file_exists := bool_decide (is_Some f) in
  let rows := default [] f in                (* open(..., "a") *)
  let rows := if negb file_exists then rows ++ [["Device Name"; "URL"]]
              else rows in
  Some (rows ++ [[device_name; url]]).

(** [[link for link in all_links if link not in scraped_links]] *)
Definition new_links (all_links : list string) (scraped_links : gset string)
  : list string :=
  filter (λ link, link ∉ scraped_links) all_links.

(* ================================================================== *)
(** * The batch loop of [__main__] *)

(** What a run leaves behind: the ledger, the JSON files written (path and
    content, in the order of writing), the image downloads asked for, and
    the notifications sent. *)
Record world : Type := World {
  w_csv : csv_file;
  w_raw : list (string * raw_record);
  w_formatted : list (string * pydict (pydict string));
  w_images : list (string * string);
  w_notified : list (string * string * option string)
}.

(** A statement of the loop: it ends normally or raises, and changes the
    world up to that point. *)
Definition io (A : Type) : Type := world -> result A * world.

#[global] Instance io_ret : MRet io := fun A a w => (Ok a, w).
#[global] Instance io_bind : MBind io := fun A B f m w =>
  match m w with
  | (Ok a, w') => f a w'
  | (Raise e, w') => (Raise e, w')
  end.

Definition lift {A} (r : result A) : io A := fun w => (r, w).

Definition CSV_FILE_NAME : string := "scraped_devices.csv".

(** The file-name stem of an item: [re.sub] deletes the characters
    backslash, slash, star, question mark, colon, double quote, angle
    brackets and bar from the name, then [.replace] turns each space into
    an underscore. *)
Definition reserved_char (c : ascii) : bool :=
  bool_decide (c ∈ ["\"; "/"; "*"; "?"; ":"; "034"; "<"; ">"; "|"]%char).

Fixpoint remove_chars (p : ascii -> bool) (s : string) : string :=
  match s with
  | "" => ""
  | String c s' => if p c then remove_chars p s' else String c (remove_chars p s')
  end.

Definition safe_name_of (name : string) : string :=
  str_replace " " "_" (remove_chars reserved_char name).

(** [os.path.join(dir, name)] on a POSIX system. *)
Definition path_join (dir name : string) : string := dir +:+ "/" +:+ name.

Section Batch.
(** The collaborators of the loop. *)
(** [scrape_latest_device_links(playwright)]: the links found, [[]] on
    any failure. *)
Variable all_links : list string.
(** [scrape_device(context, url)]: the raw record, or [None] when the
    extraction failed. *)
Variable scrape_device : string -> option raw_record.
(** Whether [open(path, mode)] and the writes to the file succeed; they
    raise [OSError] otherwise. *)
Variable can_write : string -> bool.
(** [os.path.splitext(url)[1]]. *)
Variable splitext_ext : string -> string.

Definition dump_raw (path : string) (d : raw_record) : io unit := fun w =>
  if can_write path
  then (Ok (), World (w_csv w) (w_raw w ++ [(path, d)]) (w_formatted w)
                     (w_images w) (w_notified w))
  else (Raise OSError, w).

Definition dump_formatted (path : string) (d : pydict (pydict string))
  : io unit := fun w =>
  if can_write path
  then (Ok (), World (w_csv w) (w_raw w) (w_formatted w ++ [(path, d)])
                     (w_images w) (w_notified w))
  else (Raise OSError, w).

(** [download_and_resize_image] catches every exception itself. *)
Definition download_and_resize_image (url save_path : string) : io unit :=
  fun w =>
  (Ok (), World (w_csv w) (w_raw w) (w_formatted w)
                (w_images w ++ [(url, save_path)]) (w_notified w)).

Definition append_to_csv_io (device_name url : string) : io unit := fun w =>
  if can_write CSV_FILE_NAME
  then (Ok (), World (append_to_csv device_name url (w_csv w)) (w_raw w)
                     (w_formatted w) (w_images w) (w_notified w))
  else (Raise OSError, w).

(** [send_telegram_notification] catches every exception itself. *)
Definition send_telegram_notification (device_name device_url : string)
    (image_path : option string) : io unit := fun w =>
  (Ok (), World (w_csv w) (w_raw w) (w_formatted w) (w_images w)
                (w_notified w ++ [(device_name, device_url, image_path)])).

(** The body of [for i, link in enumerate(new_links_to_scrape)]. *)
Definition process_link (link : string) : io unit :=
  let raw_data := scrape_device link in
  match raw_data with
  | None => mret ()
  | Some raw_data =>
      formatted_data ← lift (transform_gsmarena_to_formatted raw_data);
      let safe_name := safe_name_of (raw_name raw_data) in
      let raw_filename := path_join "raw_data" (safe_name +:+ ".json") in
      _ ← dump_raw raw_filename raw_data;
      let formatted_filename :=
        path_join "formatted_data" (safe_name +:+ ".json") in
      _ ← dump_formatted formatted_filename formatted_data;
      let image_url := raw_image raw_data in
      image_filename ←
        match image_url with
        | Some url =>
            if truthy url then
              let file_extension := py_or (splitext_ext url) ".jpg" in
              let image_filename :=
                path_join "images" (safe_name +:+ file_extension) in
              _ ← download_and_resize_image url image_filename;
              mret (Some image_filename)
            else mret None
        | None => mret None
        end;
      _ ← append_to_csv_io (raw_name raw_data) link;
      send_telegram_notification (raw_name raw_data) link image_filename
  end.

Fixpoint scrape_loop (links : list string) : io unit :=
  match links with
  | [] => mret ()
  | link :: links' => _ ← process_link link; scrape_loop links'
  end.

Definition main : io unit := fun w =>
  match all_links with
  | [] => (Ok (), w)                       (* "No links to process." *)
  | _ :: _ =>
      let scraped_links := load_scraped_links_from_csv (w_csv w) in
      let new_links_to_scrape := new_links all_links scraped_links in
      match new_links_to_scrape with
      | [] => (Ok (), w)                   (* "No new devices to scrape." *)
      | _ :: _ => scrape_loop new_links_to_scrape w
      end
  end.
End Batch.

(* ================================================================== *)
(** * Reference semantics used in the statements *)

(** The words a pattern denotes, groups and matching order put aside. *)
Inductive lang (ic : bool) : regex -> string -> Prop :=
| lang_chr a x :
    char_matches ic a x = true -> lang ic (Chr a) (String x "")
| lang_digit x : isdigit x = true -> lang ic Digit (String x "")
| lang_space x : isspace x = true -> lang ic Space (String x "")
| lang_eps : lang ic Eps ""
| lang_seq r1 r2 w1 w2 :
    lang ic r1 w1 -> lang ic r2 w2 -> lang ic (Seq r1 r2) (w1 +:+ w2)
| lang_alt_l r1 r2 w : lang ic r1 w -> lang ic (Alt r1 r2) w
| lang_alt_r r1 r2 w : lang ic r2 w -> lang ic (Alt r1 r2) w
| lang_star_nil r : lang ic (Star r) ""
| lang_star_cons r w1 w2 :
    lang ic r w1 -> lang ic (Star r) w2 -> lang ic (Star r) (w1 +:+ w2)
| lang_plus r w1 w2 :
    lang ic r w1 -> lang ic (Star r) w2 -> lang ic (Plus r) (w1 +:+ w2)
| lang_opt_nil r : lang ic (Opt r) ""
| lang_opt_some r w : lang ic r w -> lang ic (Opt r) w
| lang_group n r w : lang ic r w -> lang ic (Group n r) w.

(** The group numbers a pattern may set. *)
Fixpoint groups_of (r : regex) : list nat :=
  match r with
  | Chr _ | Digit | Space | Eps => []
  | Seq r1 r2 | Alt r1 r2 => groups_of r1 ++ groups_of r2
  | Star r' | Plus r' | Opt r' => groups_of r'
  | Group n r' => n :: groups_of r'
  end.

(** The fixed schema: the sections and, for each, its labels, in the order
    of the dictionary literals of the source. *)
Definition schema : list (string * list string) :=
  [ ("Camera", ["Rear:"; "Flash:"; "Front:"; "Folded:"; "Main camera:";
                "Second camera:"; "Third camera:"; "Specifications:";
                "Video recording:"]);
    ("Design", ["Keys:"; "Colors:"; "Folded:"; "Weight:"; "Materials:";
                "Biometrics:"; "Dimensions:"; "Resistance:"]);
    ("Battery", ["Type:"; "Capacity:"; "Charging:"; "Max charge speed:"]);
    ("Display", ["Size:"; "Features:"; "Resolution:"; "Technology:";
                 "Refresh rate:"; "Screen-to-body:"; "Peak brightness:";
                 "Front cover display:"]);
    ("Cellular", ["Technology:"; "2G bands:"; "3G bands:"; "4G bands:";
                  "5G bands:"; "SIM type:"]);
    ("Hardware", ["OS:"; "GPU:"; "RAM:"; "Processor:"; "Device type:";
                  "Internal storage:"]);
    ("Multimedia", ["Speakers:"; "Headphones:"; "Screen mirroring:";
                    "Additional microphone(s):"]);
    ("Connectivity & Features",
       ["USB:"; "Other:"; "Wi-Fi:"; "Sensors:"; "Features:"; "Location:";
        "Bluetooth:"]) ].

(** The sections of a record with the labels each one holds. *)
Definition shape (out : pydict (pydict string)) : list (string * list string) :=
  (λ sec : string * pydict string, (sec.1, dict_keys sec.2)) <$> out.

(** The value of a field of a record. *)
Definition field (out : pydict (pydict string)) (section label : string)
  : option string :=
  fields ← dict_lookup out section; dict_lookup fields label.

(** The first of the strings that is not empty, the empty string if there
    is none. *)
Fixpoint first_nonempty (l : list string) : string :=
  match l with
  | [] => ""
  | x :: l' => if truthy x then x else first_nonempty l'
  end.

(** A key with every two adjacent plain spaces, taken from the left,
    turned into one non-breaking space. *)
Fixpoint two_spaces_to_nbsp (key : string) : string :=
  match key with
  | String " " (String " " key') => String "160" (two_spaces_to_nbsp key')
  | String c key' => String c (two_spaces_to_nbsp key')
  | "" => ""
  end.

(** The text of group [n], empty when the group is not set. *)
Definition group_text (m : match_obj) (n : nat) : string :=
  default "" (mo_groups m !! n).

(** What [re.search] has to return on [s]: a match whose text is a word of
    the pattern, starting at the leftmost position where one starts, or
    nothing when no part of [s] is a word of the pattern. *)
Definition search_spec (ic : bool) (r : regex) (s : string)
    (found : option match_obj) : Prop :=
  match found with
  | Some m =>
      ∃ pre, s = pre +:+ mo_text m +:+ mo_rest m
           ∧ lang ic r (mo_text m)
           ∧ ∀ pre' w post, s = pre' +:+ w +:+ post -> lang ic r w ->
               String.length pre <= String.length pre'
  | None => ∀ pre w post, s = pre +:+ w +:+ post -> ¬ lang ic r w
  end.

(** The fields of a record that are not the empty string, as
    (section, label, value). *)
Definition nonempty_fields (out : pydict (pydict string))
  : list (string * string * string) :=
  sec ← out;
  fld ← sec.2;
  if truthy fld.2 then [(sec.1, fld.1, fld.2)] else [].

(** The input with the text of a match cut out of it. *)
Definition cut_match (s : string) (m : match_obj) : string :=
  str_take (String.length s - String.length (mo_text m)
            - String.length (mo_rest m)) s
  +:+ mo_rest m.

(** The battery type the way the specification words it: the raw string
    with the matched capacity removed, and the suffix when what remains
    mentions "non-removable". *)
Definition battery_type_as_specified (raw : string) : string :=
  let remaining :=
    match re_search capacity_re raw with
    | Some m => cut_match raw m
    | None => raw
    end in
  if str_contains "non-removable" (str_lower remaining)
  then remaining +:+ ", Not user replaceable" else remaining.

(** The raw value of a field, [None] when the category or the key is
    missing from the record. *)
Definition raw_field (data : raw_record) (category key : string)
  : option string :=
  entries ← default ∅ (raw_specs data) !! category; entries !! key.

(** A record with nothing but these specs. *)
Definition record_of (specs : gmap string (gmap string string)) : raw_record :=
  RawRecord "https://www.gsmarena.com/acme_one-1.php" "Acme One" None []
            (Some specs).

(** A run of the batch loop on two new links, both pages extracted, where
    the raw JSON file of the first item cannot be written. *)
Definition two_links : list string :=
  [ "https://www.gsmarena.com/acme_one-1.php";
    "https://www.gsmarena.com/acme_two-2.php" ].

Definition two_pages (url : string) : option raw_record :=
  if String.eqb url "https://www.gsmarena.com/acme_one-1.php"
  then Some (RawRecord url "Acme One" None [] (Some ∅))
  else if String.eqb url "https://www.gsmarena.com/acme_two-2.php"
  then Some (RawRecord url "Acme Two" None [] (Some ∅))
  else None.

Definition first_raw_file_unwritable (path : string) : bool :=
  negb (String.eqb path "raw_data/Acme_One.json").

Definition no_extension (url : string) : string := "".

Definition fresh_world : world := World None [] [] [] [].

(** The labels whose value is read from the raw record, each with the raw
    fields (category and key, as stored) it is computed from; Camera
    "Folded:" is computed from none and is always empty.  The labels left
    out are the three constants and Hardware "Internal storage:". *)
Definition main_camera_keys : list (string * string) :=
  [ ("MAIN CAMERA", "Triple"); ("MAIN CAMERA", "Quad");
    ("MAIN CAMERA", "Dual"); ("MAIN CAMERA", "Single") ].

Definition field_sources : list (string * string * list (string * string)) :=
  [ ("Camera", "Rear:", main_camera_keys);
    ("Camera", "Flash:", [("MAIN CAMERA", "Features")]);
    ("Camera", "Front:", [("SELFIE CAMERA", "Single"); ("SELFIE CAMERA", "Dual")]);
    ("Camera", "Folded:", []);
    ("Camera", "Main camera:", main_camera_keys);
    ("Camera", "Second camera:", main_camera_keys);
    ("Camera", "Third camera:", main_camera_keys);
    ("Camera", "Specifications:", main_camera_keys);
    ("Camera", "Video recording:", [("MAIN CAMERA", "Video")]);
    ("Design", "Colors:", [("MISC", "Colors")]);
    ("Design", "Folded:", [("BODY", "Folded")]);
    ("Design", "Weight:", [("BODY", "Weight")]);
    ("Design", "Materials:", [("BODY", "Build")]);
    ("Design", "Biometrics:", [("FEATURES", "Sensors")]);
    ("Design", "Dimensions:", [("BODY", "Dimensions")]);
    ("Design", "Resistance:", [("BODY", nbsp); ("BODY", "")]);
    ("Battery", "Type:", [("BATTERY", "Type")]);
    ("Battery", "Capacity:", [("BATTERY", "Type")]);
    ("Battery", "Charging:", [("BATTERY", "Charging")]);
    ("Battery", "Max charge speed:", [("BATTERY", "Charging")]);
    ("Display", "Size:", [("DISPLAY", "Size")]);
    ("Display", "Features:", [("FEATURES", "Sensors")]);
    ("Display", "Resolution:", [("DISPLAY", "Resolution")]);
    ("Display", "Technology:", [("DISPLAY", "Type")]);
    ("Display", "Refresh rate:", [("DISPLAY", "Type")]);
    ("Display", "Screen-to-body:", [("DISPLAY", "Size")]);
    ("Display", "Peak brightness:", [("DISPLAY", "Type")]);
    ("Display", "Front cover display:", [("DISPLAY", "Secondary display")]);
    ("Cellular", "Technology:", [("NETWORK", "Technology")]);
    ("Cellular", "2G bands:", [("NETWORK", "2G bands")]);
    ("Cellular", "3G bands:", [("NETWORK", "3G bands")]);
    ("Cellular", "4G bands:", [("NETWORK", "4G bands")]);
    ("Cellular", "5G bands:", [("NETWORK", "5G bands")]);
    ("Cellular", "SIM type:", [("BODY", "SIM")]);
    ("Hardware", "OS:", [("PLATFORM", "OS")]);
    ("Hardware", "GPU:", [("PLATFORM", "GPU")]);
    ("Hardware", "RAM:", [("MEMORY", "Internal")]);
    ("Hardware", "Processor:", [("PLATFORM", "Chipset")]);
    ("Multimedia", "Speakers:", [("SOUND", "Loudspeaker")]);
    ("Multimedia", "Headphones:", [("SOUND", "3.5mm jack")]);
    ("Multimedia", "Additional microphone(s):", [("SOUND", nbsp)]);
    ("Connectivity & Features", "USB:", [("COMMS", "USB")]);
    ("Connectivity & Features", "Other:",
       [("COMMS", "NFC"); ("COMMS", "Infrared port")]);
    ("Connectivity & Features", "Wi-Fi:", [("COMMS", "WLAN")]);
    ("Connectivity & Features", "Sensors:", [("FEATURES", "Sensors")]);
    ("Connectivity & Features", "Features:", [("COMMS", "USB")]);
    ("Connectivity & Features", "Location:", [("COMMS", "Positioning")]);
    ("Connectivity & Features", "Bluetooth:", [("COMMS", "Bluetooth")]) ].

(** The (section, label) pairs of a schema. *)
Definition labels_of (sch : list (string * list string))
  : list (string * string) :=
  sec ← sch; label ← sec.2; [(sec.1, label)].

(* ================================================================== *)
(** * The page extractor [scrape_device]

    A locator is modelled by the texts of the elements it matches, in
    document order.  Every exception raised inside the [try] block makes
    [scrape_device] return [None]; an extraction is therefore an
    [option]. *)

(** A row of a spec table: its [th], [td.ttl] and [td.nfo] cells. *)
Record spec_row : Type := SpecRow {
  row_th : list string;
  row_ttl : list string;
  row_nfo : list string
}.

(** What the extractor reads of a device page: the [h1] titles, the [src]
    attributes of the main photo ([None]: no such attribute), the
    spotlight items and the spec tables. *)
Record page : Type := Page {
  pg_title : list string;
  pg_img_src : list (option string);
  pg_highlights : list string;
  pg_tables : list (list spec_row)
}.

(** [locator.inner_text()]: Playwright wants exactly one element. *)
Definition inner_text (cells : list string) : option string :=
  match cells with
  | [text] => Some text
  | _ => None
  end.

(** The body of [for r in range(rows.count())], on the current category
    and the specs built so far. *)
Definition scrape_row (category : string)
    (specs : gmap string (gmap string string)) (row : spec_row)
  : option (string * gmap string (gmap string string)) :=
  st ←
    (if bool_decide (0 < length (row_th row)) then
       text ← inner_text (row_th row);
       let category := str_strip text in
       let specs :=
         if bool_decide (is_Some (specs !! category)) then specs
         else <[category := ∅]> specs in
       Some (category, specs)
     else Some (category, specs));
  let category : string := st.1 in
  let specs : gmap string (gmap string string) := st.2 in
  if bool_decide (0 < length (row_ttl row))
     && bool_decide (0 < length (row_nfo row))
     && truthy category
  then
    key_text ← inner_text (row_ttl row);
    let key := str_strip key_text in
    val_text ← inner_text (row_nfo row);
    let val := str_strip val_text in
    entries ← specs !! category;            (* specs[category]: KeyError *)
    Some (category, <[category := <[key := val]> entries]> specs)
  else Some (category, specs).

Fixpoint scrape_rows (rows : list spec_row) (category : string)
    (specs : gmap string (gmap string string))
  : option (gmap string (gmap string string)) :=
  match rows with
  | [] => Some specs
  | row :: rows' =>
      st ← scrape_row category specs row;
      scrape_rows rows' st.1 st.2
  end.

(** [for t in range(tables.count())]: the category starts empty in every
    table. *)
Fixpoint scrape_tables (tables : list (list spec_row))
    (specs : gmap string (gmap string string))
  : option (gmap string (gmap string string)) :=
  match tables with
  | [] => Some specs
  | rows :: tables' =>
      specs ← scrape_rows rows "" specs;
      scrape_tables tables' specs
  end.

(** The image URL: the [src] made absolute, [None] when the attribute is
    missing or reading it raised. *)
Definition scrape_image (srcs : list (option string)) : option string :=
  match srcs with
  | [Some img_src] =>
      if truthy img_src && negb (String.prefix "http" img_src)
      then Some ("https://www.gsmarena.com/" +:+ img_src)
      else Some img_src
  | _ => None
  end.

(** [scrape_device(context, url)] once the page is loaded. *)
Definition scrape_page (url : string) (pg : page) : option raw_record :=
  match pg_title pg with
  | [] => None                      (* wait_for_selector times out *)
  | _ :: _ =>
      title ← inner_text (pg_title pg);
      let device_name := str_strip title in
      let image := scrape_image (pg_img_src pg) in
      let highlights := str_strip <$> pg_highlights pg in
      specs ← scrape_tables (pg_tables pg) ∅;
      Some (RawRecord url device_name image highlights (Some specs))
  end.

(** The entries a page holds, in document order, as the extractor reads
    them: (category, key, value), a row counting when it has a key cell
    and a value cell and its table has had a non-empty header. *)
Fixpoint rows_entries (category : string) (rows : list spec_row)
  : list (string * string * string) :=
  match rows with
  | [] => []
  | row :: rows' =>
      let category :=
        match row_th row with
        | [text] => str_strip text
        | _ => category
        end in
      match row_ttl row, row_nfo row with
      | [key], [val] =>
          if truthy category
          then [(category, str_strip key, str_strip val)] else []
      | _, _ => []
      end ++ rows_entries category rows'
  end.

Definition page_entries (tables : list (list spec_row))
  : list (string * string * string) :=
  rows ← tables; rows_entries "" rows.

(** The value of the last entry for a category and a key. *)
Fixpoint last_entry (category key : string)
    (entries : list (string * string * string)) : option string :=
  match entries with
  | [] => None
  | (c, k, v) :: entries' =>
      match last_entry category key entries' with
      | Some v' => Some v'
      | None =>
          if String.eqb c category && String.eqb k key then Some v else None
      end
  end.

(** The headers of a page, stripped. *)
Definition page_headers (tables : list (list spec_row)) : list string :=
  rows ← tables; row ← rows;
  match row_th row with
  | [text] => [str_strip text]
  | _ => []
  end.

(** Rows with at most one cell of each kind. *)
Definition single_cells (row : spec_row) : Prop :=
  length (row_th row) <= 1 ∧ length (row_ttl row) <= 1
  ∧ length (row_nfo row) <= 1.

(** The value stored under a category and a key. *)
Definition specs_field (specs : gmap string (gmap string string))
    (category key : string) : option string :=
  entries ← specs !! category; entries !! key.

(** A small device page: a row before any header, a repeated key, and a
    continuation row whose label is one non-breaking space. *)
Definition sample_page : page :=
  Page [" Acme One "] [Some "bigpic/acme-one.jpg"] ["6.7 inches "]
    [ [ SpecRow [] ["Announced"] ["2025"];
        SpecRow ["BODY"] ["Weight"] ["190 g"];
        SpecRow [] [nbsp] ["IP68 dust/water resistant"];
        SpecRow [] ["Weight"] [" 195 g"] ];
      [ SpecRow [" SOUND"] ["Loudspeaker"] ["Yes"];
        SpecRow [] [nbsp] ["24-bit audio, dedicated mic"] ] ].

(* ================================================================== *)
(** * What a run leaves behind, item by item *)



(** The image file of an item, when its record has a non-empty image
    URL. *)
Definition image_path (splitext_ext : string -> string) (raw : raw_record)
  : option string :=
  match raw_image raw with
  | Some url =>
      if truthy url
      then Some (path_join "images"
                   (safe_name_of (raw_name raw)
                    +:+ py_or (splitext_ext url) ".jpg"))
      else None
  | None => None
  end.




(** A page per link, the second link found twice. *)
Definition links_with_duplicate : list string :=
  [ "https://www.gsmarena.com/acme_one-1.php";
    "https://www.gsmarena.com/acme_two-2.php";
    "https://www.gsmarena.com/acme_two-2.php" ].

(** A world whose ledger has its header row only. *)
Definition headed_world : world :=
  World (Some [["Device Name"; "URL"]]) [] [] [] [].

(* ================================================================== *)
(** * The link finder [scrape_latest_device_links] *)

(** [if link.get_attribute("href")] *)
Definition href_truthy (href : option string) : bool :=
  match href with
  | Some h => truthy h
  | None => false
  end.

(** [f"{href}"] *)
Definition format_href (href : option string) : string :=
  match href with
  | Some h => h
  | None => "None"
  end.

(** [anchors]: the [href] attribute of each link of the latest devices
    module, in document order ([None]: no such attribute); [None] for the
    whole when an exception was raised on the way, which the function
    answers with the empty list. *)
Definition scrape_latest_device_links (anchors : option (list (option string)))
  : list string :=
  match anchors with
  | None => []
  | Some links =>
      match links with
      | [] => []                              (* "No links found." *)
      | _ :: _ =>
          let base_url := "https://www.gsmarena.com/" in
          (λ link, base_url +:+ format_href link) <$> filter href_truthy links
      end
  end.

(* ================================================================== *)
(** * What the texts of a pattern are made of *)

(** Every character a word of the pattern can hold satisfies [P] (for a
    pattern matched with regard to letter case). *)
Fixpoint regex_over (P : ascii -> Prop) (r : regex) : Prop :=
  match r with
  | Chr a => P a
  | Digit => ∀ c, isdigit c = true -> P c
  | Space => ∀ c, isspace c = true -> P c
  | Eps => True
  | Seq r1 r2 | Alt r1 r2 => regex_over P r1 ∧ regex_over P r2
  | Star r' | Plus r' | Opt r' | Group _ r' => regex_over P r'
  end.

(** A decimal number as the patterns of the source write it:
    [\d+(\.\d+)?], the fraction being group [n]. *)
Definition number_re (n : nat) : regex :=
  (Plus Digit ⋅ Opt (Group n (Chr "." ⋅ Plus Digit)))%re.


Definition battery_record_b : raw_record :=
  RawRecord "https://www.gsmarena.com/acme_two-2.php" "Acme Two"
    (Some "https://fdn2.gsmarena.com/vv/bigpic/acme-two.jpg") ["6.7 inches"]
    (Some {[ "BATTERY" := {[ "Type" := "Li-Po 5000 mAh" ]};
             "DISPLAY" := {[ "Size" := "6.7 inches, 108.4 cm2 (~89.5% screen-to-body ratio)";
                             "Type" := " LTPO AMOLED , 120Hz" ]};
             "COMMS" := {[ "NFC" := "No"; "USB" := "USB Type-C 2.0" ]};
             "MAIN CAMERA" :=
               {[ "Dual" := "50 MP, f/1.8, 24mm (wide)" +:+ String newline ""
                            +:+ " 12 MP, f/2.2 (ultrawide) " ]} ]}).

(* ================================================================== *)
(** * Strings *)

Lemma str_app_nil_l (s : string) : "" +:+ s = s.
Proof. reflexivity. Qed.

Lemma str_app_cons (a : ascii) (s t : string) :
  String a s +:+ t = String a (s +:+ t).
Proof. reflexivity. Qed.

Lemma str_app_nil_r (s : string) : s +:+ "" = s.
Proof. induction s as [|a s IH]; [done|]. by rewrite str_app_cons, IH. Qed.

Lemma str_app_assoc (s1 s2 s3 : string) :
  (s1 +:+ s2) +:+ s3 = s1 +:+ s2 +:+ s3.
Proof. induction s1 as [|a s1 IH]; [done|]. by rewrite !str_app_cons, IH. Qed.

Lemma str_length_app (s1 s2 : string) :
  String.length (s1 +:+ s2) = String.length s1 + String.length s2.
Proof. induction s1 as [|a s1 IH]; [done|]. rewrite str_app_cons. simpl. by rewrite IH. Qed.

Lemma str_take_app (w s : string) : str_take (String.length w) (w +:+ s) = w.
Proof.
  unfold str_take. induction w as [|a w IH].
  - rewrite str_app_nil_l. by destruct s.
  - rewrite str_app_cons. simpl. by rewrite IH.
Qed.

Lemma consumed_app (w s : string) : consumed (w +:+ s) s = w.
Proof.
  unfold consumed. rewrite str_length_app.
  replace (String.length w + String.length s - String.length s)
    with (String.length w) by lia.
  apply str_take_app.
Qed.

(* ================================================================== *)
(** * The matcher against the reference semantics *)

Section Matcher.
Context (ic : bool).

Lemma one_char_elem (p : ascii -> bool) s c (st : mstate) :
  st ∈ one_char p s c ↔ ∃ x, s = String x st.1 ∧ p x = true ∧ st.2 = c.
Proof.
  destruct st as [s' c']. unfold one_char. split.
  - destruct s as [|x s]; [by intros ?%elem_of_nil|].
    destruct (p x) eqn:Hp; [|by intros ?%elem_of_nil].
    intros [=-> ->]%list_elem_of_singleton. eauto.
  - intros (x & -> & Hp & Hc). simpl in *. subst. rewrite Hp. by left.
Qed.

(** Whatever a step and the empty iteration preserve, repetition
    preserves. *)
Lemma star_go_closure (step : string -> gmap nat string -> list mstate)
    (P : mstate -> mstate -> Prop) :
  (∀ x, P x x) ->
  (∀ x y z, P x y -> P y z -> P x z) ->
  (∀ s c st, st ∈ step s c ->
     String.length st.1 < String.length s -> P (s, c) st) ->
  ∀ fuel s c st, st ∈ star_go step fuel s c -> P (s, c) st.
Proof.
  intros Hrefl Htrans Hstep fuel.
  induction fuel as [|n IH]; intros s c st; simpl.
  - by intros ->%list_elem_of_singleton.
  - rewrite elem_of_app, list_elem_of_bind, list_elem_of_singleton.
    intros [(st1 & Hin & Hst1)| ->]; [|done].
    case_decide; [|by apply elem_of_nil in Hin].
    eapply Htrans; [by apply Hstep|]. destruct st1. by apply IH.
Qed.

(** A group that the pattern does not mention keeps its value. *)
Lemma rmatch_frame r n : n ∉ groups_of r ->
  ∀ s c st, st ∈ rmatch ic r s c -> st.2 !! n = c !! n.
Proof.
  induction r as [a| | | |r1 IH1 r2 IH2|r1 IH1 r2 IH2|r IH|r IH|r IH|k r IH];
    simpl; intros Hn s c st.
  - by intros (? & _ & _ & ->)%one_char_elem.
  - by intros (? & _ & _ & ->)%one_char_elem.
  - by intros (? & _ & _ & ->)%one_char_elem.
  - by intros ->%list_elem_of_singleton.
  - rewrite list_elem_of_bind. intros (st1 & H2 & H1).
    rewrite not_elem_of_app in Hn. destruct Hn.
    rewrite (IH2 ltac:(done) _ _ _ H2). by apply (IH1 ltac:(done) _ _ _ H1).
  - rewrite not_elem_of_app in Hn. destruct Hn.
    rewrite elem_of_app. intros [?|?]; eauto.
  - intros H.
    apply (star_go_closure _ (λ x y, y.2 !! n = x.2 !! n)) in H; try done.
    + intros ??? H1 H2. by rewrite H2.
    + intros ??? H1 _. by apply IH in H1.
  - rewrite list_elem_of_bind. intros (st1 & H2 & H1).
    apply (star_go_closure _ (λ x y, y.2 !! n = x.2 !! n)) in H2.
    + simpl in H2. rewrite H2. by apply IH in H1.
    + done.
    + intros ??? H3 H4. by rewrite H4.
    + intros ??? H3 _. by apply IH in H3.
  - rewrite elem_of_app, list_elem_of_singleton. intros [?| ->]; eauto.
  - rewrite not_elem_of_cons in Hn. destruct Hn as [Hk Hn].
    rewrite list_elem_of_fmap. intros (st1 & -> & H1). simpl.
    rewrite lookup_insert_ne by done. eauto.
Qed.

Lemma lang_star_app r w1 w2 :
  lang ic (Star r) w1 -> lang ic (Star r) w2 -> lang ic (Star r) (w1 +:+ w2).
Proof.
  intros H1 H2. remember (Star r) as r' eqn:Hr.
  induction H1; inversion Hr; subst; [done|].
  rewrite str_app_assoc. constructor; auto.
Qed.

(** Soundness: what the matcher reads is a word of the pattern. *)
Lemma rmatch_sound r :
  ∀ s c st, st ∈ rmatch ic r s c -> ∃ w, s = w +:+ st.1 ∧ lang ic r w.
Proof.
  induction r as [a| | | |r1 IH1 r2 IH2|r1 IH1 r2 IH2|r IH|r IH|r IH|k r IH];
    simpl; intros s c st.
  - intros (x & -> & Hx & _)%one_char_elem.
    exists (String x ""). split; [done|by constructor].
  - intros (x & -> & Hx & _)%one_char_elem.
    exists (String x ""). split; [done|by constructor].
  - intros (x & -> & Hx & _)%one_char_elem.
    exists (String x ""). split; [done|by constructor].
  - intros ->%list_elem_of_singleton. exists "". split; [done|constructor].
  - rewrite list_elem_of_bind. intros (st1 & H2 & H1).
    apply IH1 in H1 as (w1 & -> & Hw1). apply IH2 in H2 as (w2 & -> & Hw2).
    exists (w1 +:+ w2). rewrite str_app_assoc. split; [done|by constructor].
  - rewrite elem_of_app. intros [H|H].
    + apply IH1 in H as (w & -> & Hw). exists w. split; [done|by constructor].
    + apply IH2 in H as (w & -> & Hw). exists w. split; [done|by apply lang_alt_r].
  - intros H.
    apply (star_go_closure _
             (λ x y, ∃ w, x.1 = w +:+ y.1 ∧ lang ic (Star r) w)) in H; [done|..].
    + intros x. exists "". split; [done|constructor].
    + intros x y z (w1 & -> & Hw1) (w2 & -> & Hw2). exists (w1 +:+ w2).
      rewrite str_app_assoc. split; [done|by apply lang_star_app].
    + intros s0 c0 st0 H0 _. apply IH in H0 as (w & -> & Hw). exists w.
      split; [done|]. rewrite <-(str_app_nil_r w). constructor; [done|constructor].
  - rewrite list_elem_of_bind. intros ([s1 c1] & H2 & H1).
    apply IH in H1 as (w1 & -> & Hw1). simpl in *.
    apply (star_go_closure _
             (λ x y, ∃ w, x.1 = w +:+ y.1 ∧ lang ic (Star r) w)) in H2.
    + destruct H2 as (w2 & Heq & Hw2). simpl in Heq. subst s1.
      exists (w1 +:+ w2).
      rewrite str_app_assoc. split; [done|by constructor].
    + intros x. exists "". split; [done|constructor].
    + intros x y z (w1' & -> & Hw1') (w2 & -> & Hw2). exists (w1' +:+ w2).
      rewrite str_app_assoc. split; [done|by apply lang_star_app].
    + intros s0 c0 st0 H0 _. apply IH in H0 as (w & -> & Hw). exists w.
      split; [done|]. rewrite <-(str_app_nil_r w). constructor; [done|constructor].
  - rewrite elem_of_app, list_elem_of_singleton. intros [H| ->].
    + apply IH in H as (w & -> & Hw). exists w. split; [done|by apply lang_opt_some].
    + exists "". split; [done|constructor].
  - rewrite list_elem_of_fmap. intros (st1 & -> & H1). simpl.
    apply IH in H1 as (w & -> & Hw). exists w. split; [done|by constructor].
Qed.
(** Fuel beyond the length of the input changes nothing. *)
Lemma star_go_fuel step n m s c :
  String.length s <= n -> String.length s <= m ->
  star_go step n s c = star_go step m s c.
Proof.
  revert m s c. induction n as [|n IH]; intros [|m] s c Hn Hm; simpl; try done.
  - assert (String.length s = 0) as Hs by lia.
    rewrite (list_bind_ext _ (λ _, []) _ (step s c)); [|  |done].
    + by induction (step s c).
    + intros st. case_decide; [lia|done].
  - assert (String.length s = 0) as Hs by lia.
    rewrite (list_bind_ext _ (λ _, []) _ (step s c)); [|  |done].
    + by induction (step s c).
    + intros st. case_decide; [lia|done].
  - f_equal. apply list_bind_ext; [|done].
    intros st. case_decide; [|done]. apply IH; lia.
Qed.

Lemma star_go_step step n s c (st1 st : mstate) :
  String.length s <= n ->
  st1 ∈ step s c -> String.length st1.1 < String.length s ->
  st ∈ star_go step (String.length st1.1) st1.1 st1.2 ->
  st ∈ star_go step n s c.
Proof.
  intros Hn H1 Hlt H. destruct n as [|n]; [lia|]. simpl.
  rewrite elem_of_app, list_elem_of_bind. left. exists st1. split; [|done].
  rewrite decide_True by done.
  by rewrite (star_go_fuel _ n (String.length st1.1)) by lia.
Qed.

Lemma star_go_stop step n s c : (s, c) ∈ star_go step n s c.
Proof.
  destruct n; simpl; [by left|].
  rewrite elem_of_app, list_elem_of_singleton. by right.
Qed.

(** Completeness: every word of the pattern, followed by anything, is
    read by the matcher. *)
Lemma rmatch_complete r w :
  lang ic r w -> ∀ s' c, ∃ c', (s', c') ∈ rmatch ic r (w +:+ s') c.
Proof.
  induction 1 as [a x Hx|x Hx|x Hx| |r1 r2 w1 w2 _ IH1 _ IH2
                 |r1 r2 w _ IH|r1 r2 w _ IH|r|r w1 w2 _ IH1 _ IH2
                 |r w1 w2 _ IH1 _ IH2|r|r w _ IH|n r w _ IH];
    intros s' c; cbn [rmatch].
  - exists c. apply one_char_elem. eauto.
  - exists c. apply one_char_elem. eauto.
  - exists c. apply one_char_elem. eauto.
  - exists c. by left.
  - destruct (IH1 (w2 +:+ s') c) as [c1 H1]. destruct (IH2 s' c1) as [c2 H2].
    exists c2. rewrite str_app_assoc. apply list_elem_of_bind.
    exists (w2 +:+ s', c1). eauto.
  - destruct (IH s' c) as [c1 H1]. exists c1. apply elem_of_app. eauto.
  - destruct (IH s' c) as [c1 H1]. exists c1. apply elem_of_app. eauto.
  - exists c. apply star_go_stop.
  - destruct w1 as [|a w1]; [by apply IH2|].
    destruct (IH1 (w2 +:+ s') c) as [c1 H1].
    destruct (IH2 s' c1) as [c2 H2]. simpl in H2.
    exists c2. rewrite str_app_assoc.
    eapply star_go_step; [done|exact H1|..]; simpl; [|done].
    rewrite !str_length_app. simpl. lia.
  - destruct (IH1 (w2 +:+ s') c) as [c1 H1].
    destruct (IH2 s' c1) as [c2 H2]. simpl in H2.
    exists c2. rewrite str_app_assoc. apply list_elem_of_bind.
    exists (w2 +:+ s', c1). eauto.
  - exists c. apply elem_of_app. right. by left.
  - destruct (IH s' c) as [c1 H1]. exists c1. apply elem_of_app. eauto.
  - destruct (IH s' c) as [c1 H1]. eexists.
    apply list_elem_of_fmap. exists (s', c1). eauto.
Qed.

Lemma rmatch_head r s st l :
  rmatch ic r s ∅ = st :: l ->
  s = consumed s st.1 +:+ st.1 ∧ lang ic r (consumed s st.1).
Proof.
  intros E. assert (st ∈ rmatch ic r s ∅) as Hin by (rewrite E; by left).
  apply rmatch_sound in Hin as (w & -> & HL). by rewrite consumed_app.
Qed.

Lemma rmatch_nil_no_prefix r s w post :
  rmatch ic r s ∅ = [] -> s = w +:+ post -> ¬ lang ic r w.
Proof.
  intros E -> Hw. destruct (rmatch_complete r w Hw post ∅) as [c' Hc'].
  rewrite E in Hc'. by apply elem_of_nil in Hc'.
Qed.

(** [re.search] finds the leftmost position at which a word of the
    pattern starts, and reports a word of the pattern there. *)
Lemma re_search_Some r s m :
  re_search_flags ic r s = Some m ->
  ∃ pre, s = pre +:+ mo_text m +:+ mo_rest m
       ∧ lang ic r (mo_text m)
       ∧ ∀ pre' w post, s = pre' +:+ w +:+ post -> lang ic r w ->
           String.length pre <= String.length pre'.
Proof.
  revert m. induction s as [|a s IH]; intros m; simpl.
  - destruct (rmatch ic r "" ∅) as [|st l] eqn:E; [done|].
    intros [= <-]. simpl. apply rmatch_head in E as [E1 E2]. exists "".
    split_and!; [done|done|]. intros; simpl; lia.
  - destruct (rmatch ic r (String a s) ∅) as [|st l] eqn:E.
    + intros Hm. destruct (IH _ Hm) as (pre & Heq & HL & Hleft).
      exists (String a pre). split_and!; [by rewrite str_app_cons, <-Heq|done|].
      intros [|b pre'] w post Heq' Hw.
      * exfalso. rewrite str_app_nil_l in Heq'.
        by apply (rmatch_nil_no_prefix _ _ _ _ E Heq').
      * rewrite str_app_cons in Heq'. injection Heq' as -> Heq'.
        simpl. apply Hleft in Heq'; [lia|done].
    + intros [= <-]. simpl. apply rmatch_head in E as [E1 E2]. exists "".
      split_and!; [done|done|]. intros; simpl; lia.
Qed.

Lemma re_search_None r s :
  re_search_flags ic r s = None ↔
  ∀ pre w post, s = pre +:+ w +:+ post -> ¬ lang ic r w.
Proof.
  split.
  - induction s as [|a s IH]; simpl.
    + destruct (rmatch ic r "" ∅) as [|st l] eqn:E; [|done].
      intros _ [|b pre] w post Heq Hw; [|done].
      rewrite str_app_nil_l in Heq.
      by apply (rmatch_nil_no_prefix _ _ _ _ E Heq).
    + destruct (rmatch ic r (String a s) ∅) as [|st l] eqn:E; [|done].
      intros Hm [|b pre] w post Heq Hw.
      * rewrite str_app_nil_l in Heq.
        by apply (rmatch_nil_no_prefix _ _ _ _ E Heq).
      * rewrite str_app_cons in Heq. injection Heq as -> Heq.
        by apply (IH Hm pre w post).
  - intros Hno. destruct (re_search_flags ic r s) as [m|] eqn:E; [|done].
    apply re_search_Some in E as (pre & Heq & HL & _).
    by destruct (Hno _ _ _ Heq).
Qed.
End Matcher.

(* ================================================================== *)
(** * Dictionaries, splitting and stripping *)

Lemma dict_keys_set_in {V} (d : pydict V) k v :
  k ∈ dict_keys d -> dict_keys (dict_set d k v) = dict_keys d.
Proof.
  unfold dict_keys. induction d as [|[k' v'] d IH]; simpl.
  - by intros ?%elem_of_nil.
  - destruct (String.eqb_spec k' k) as [->|Hne]; simpl; [done|].
    intros [?|?]%elem_of_cons; [congruence|]. f_equal. by apply IH.
Qed.

Lemma dict_lookup_set_eq {V} (d : pydict V) k v :
  dict_lookup (dict_set d k v) k = Some v.
Proof.
  induction d as [|[k' v'] d IH]; simpl.
  - by rewrite String.eqb_refl.
  - destruct (String.eqb_spec k' k) as [->|Hne]; simpl.
    + by rewrite String.eqb_refl.
    + by destruct (String.eqb_spec k' k).
Qed.

Lemma dict_lookup_set_ne {V} (d : pydict V) k k' v :
  k ≠ k' -> dict_lookup (dict_set d k v) k' = dict_lookup d k'.
Proof.
  intros Hne. induction d as [|[k0 v0] d IH]; simpl.
  - by destruct (String.eqb_spec k k').
  - destruct (String.eqb_spec k0 k) as [->|Hne0]; simpl.
    + destruct (String.eqb_spec k k'); [done|]. done.
    + by rewrite IH.
Qed.

Lemma str_split_cons sep s : ∃ h t, str_split sep s = h :: t.
Proof.
  induction s as [|c s (h & t & IH)]; simpl; [eauto|].
  destruct (Ascii.eqb c sep); [eauto|]. rewrite IH. eauto.
Qed.

Lemma truthy_false s : truthy s = false -> s = "".
Proof. by destruct s. Qed.


(* ================================================================== *)
(** * The groups of the patterns of the source *)

Lemma re_search_elem ic r s m :
  re_search_flags ic r s = Some m ->
  ∃ s0, (mo_rest m, mo_groups m) ∈ rmatch ic r s0 ∅
        ∧ mo_text m = consumed s0 (mo_rest m).
Proof.
  revert m. induction s as [|a s IH]; intros m; simpl.
  - destruct (rmatch ic r "" ∅) as [|[s1 c1] l] eqn:E; [done|].
    intros [= <-]. exists "". rewrite E. split; [by left|done].
  - destruct (rmatch ic r (String a s) ∅) as [|[s1 c1] l] eqn:E; [by apply IH|].
    intros [= <-]. exists (String a s). rewrite E. split; [by left|done].
Qed.

(** A pattern that is one group: group 1 is the whole match. *)
Lemma group1_whole ic b s m :
  re_search_flags ic (Group 1 b) s = Some m ->
  mo_groups m !! 1 = Some (mo_text m) ∧ lang ic b (mo_text m).
Proof.
  intros (s0 & Hin & ->)%re_search_elem. simpl in Hin.
  apply list_elem_of_fmap in Hin as ([s1 c1] & [= -> ->] & Hin).
  simpl. rewrite lookup_insert_eq. split; [done|].
  apply rmatch_sound in Hin as (w & -> & Hw). by rewrite consumed_app.
Qed.

(** A pattern that starts with group 1 and has no other mention of it:
    group 1 is the first part of the match. *)
Lemma group1_head ic b tail s m :
  1 ∉ groups_of tail ->
  re_search_flags ic (Seq (Group 1 b) tail) s = Some m ->
  ∃ g t, mo_groups m !! 1 = Some g ∧ mo_text m = g +:+ t
         ∧ lang ic b g ∧ lang ic tail t.
Proof.
  intros Hfr (s0 & Hin & ->)%re_search_elem. simpl in Hin.
  apply list_elem_of_bind in Hin as (st1 & Hin2 & Hin1).
  apply list_elem_of_fmap in Hin1 as ([s1 c1] & -> & Hin1). simpl in Hin2.
  pose proof (rmatch_frame ic tail 1 Hfr _ _ _ Hin2) as Hg. simpl in Hg.
  rewrite lookup_insert_eq in Hg.
  apply rmatch_sound in Hin1 as (g & -> & Hg1). simpl in *.
  apply rmatch_sound in Hin2 as (t & Hs1 & Ht). simpl in Hs1. subst s1.
  exists g, t. rewrite consumed_app in Hg. split_and!; [done| |done|done].
  by rewrite <-str_app_assoc, consumed_app.
Qed.

Lemma group_Ok m n g : mo_groups m !! n = Some g -> group m n = Ok g.
Proof. unfold group. by intros ->. Qed.

Lemma group_text_Some m n g : mo_groups m !! n = Some g -> group_text m n = g.
Proof. unfold group_text. by intros ->. Qed.

(** The first pair of [re.findall] is the pair of groups of [re.search]. *)
Lemma re_findall2_head r s :
  head (re_findall2 r s)
  = (λ m, (group_text m 1, group_text m 2)) <$> re_search r s.
Proof.
  unfold re_findall2. simpl. by destruct (re_search r s).
Qed.

Lemma lang_Lit_exact s w : lang false (Lit s) w -> w = s.
Proof.
  revert w. induction s as [|a s IH]; intros w; simpl.
  - by inversion 1.
  - destruct s as [|b s].
    + inversion 1 as [? x Hx| | | | | | | | | | | |]; subst.
      simpl in Hx. by apply Ascii.eqb_eq in Hx as ->.
    + inversion 1 as [| | | |? ? w1 w2 H1 H2| | | | | | | |]; subst.
      inversion H1 as [? x Hx| | | | | | | | | | | |]; subst.
      simpl in Hx. apply Ascii.eqb_eq in Hx as ->.
      apply IH in H2 as ->. done.
Qed.

Lemma lang_plus_digit_head ic w :
  lang ic (Plus Digit) w -> ∃ x w', w = String x w' ∧ isdigit x = true.
Proof.
  inversion 1 as [| | | | | | | | |? w1 w2 H1 H2| | |]; subst.
  inversion H1; subst. eauto.
Qed.

Lemma lstrip_by_keep p x s : p x = false -> lstrip_by p (String x s) = String x s.
Proof. simpl. by intros ->. Qed.

Lemma rstrip_by_keep p s y :
  p y = false -> rstrip_by p (s +:+ String y "") = s +:+ String y "".
Proof.
  intros Hy. induction s as [|a s IH].
  - rewrite str_app_nil_l. simpl. by rewrite Hy.
  - rewrite str_app_cons. simpl. rewrite IH.
    destruct s; [by rewrite str_app_nil_l|by rewrite str_app_cons].
Qed.

Lemma strip_by_keep p x s y :
  p x = false -> p y = false ->
  strip_by p (String x (s +:+ String y "")) = String x (s +:+ String y "").
Proof.
  intros Hx Hy. unfold strip_by. rewrite lstrip_by_keep by done.
  by rewrite <-str_app_cons, rstrip_by_keep.
Qed.

Lemma isdigit_not_space x : isdigit x = true -> isspace x = false.
Proof. destruct x as [[] [] [] [] [] [] [] []]; by vm_compute. Qed.

(** A capacity as matched has no white space at either end, so
    [.strip()] leaves it as it is. *)
Lemma capacity_strip g :
  lang false (Plus Digit ⋅ Star Space ⋅ Lit "mAh") g -> str_strip g = g.
Proof.
  inversion 1 as [| | | |? ? w1 w23 H1 H23| | | | | | | |]; subst.
  inversion H23 as [| | | |? ? w2 w3 H2 H3| | | | | | | |]; subst.
  apply lang_plus_digit_head in H1 as (x & w' & -> & Hx).
  apply (lang_Lit_exact "mAh") in H3 as ->.
  rewrite str_app_cons.
  replace (w' +:+ w2 +:+ "mAh") with ((w' +:+ w2 +:+ "mA") +:+ "h")
    by by rewrite !str_app_assoc.
  apply strip_by_keep; [by apply isdigit_not_space|done].
Qed.

(* ================================================================== *)
(** * The sections of the normaliser, in closed form *)

Ltac result_simpl :=
  repeat (progress (unfold mbind, result_bind, mret, result_ret; simpl)).

Lemma wired_group1 s m :
  re_search_ignorecase wired_speed_re s = Some m ->
  group m 1 = Ok (group_text m 1).
Proof.
  intros H. apply group1_head in H as (g & t & Hg & _); [|set_solver].
  by rewrite (group_Ok _ _ _ Hg), (group_text_Some _ _ _ Hg).
Qed.

Lemma wireless_group1 s m :
  re_search_ignorecase wireless_speed_re s = Some m ->
  group m 1 = Ok (group_text m 1).
Proof.
  intros H. apply group1_head in H as (g & t & Hg & _); [|set_solver].
  by rewrite (group_Ok _ _ _ Hg), (group_text_Some _ _ _ Hg).
Qed.

Lemma battery_section_eq data :
  let raw := get_spec data "BATTERY" "Type" "" in
  let charging := get_spec data "BATTERY" "Charging" "" in
  let type_info :=
    match re_search capacity_re raw with
    | Some m => str_strip_chars ", " (str_replace (mo_text m) "" raw)
    | None => raw
    end in
  battery_section data = Ok
    [ ("Type:", if str_contains "non-removable" (str_lower type_info)
                then type_info +:+ ", Not user replaceable" else type_info);
      ("Capacity:", match re_search capacity_re raw with
                    | Some m => mo_text m
                    | None => ""
                    end);
      ("Charging:", charging);
      ("Max charge speed:",
         match re_search_ignorecase wired_speed_re charging with
         | Some m => "Wired: " +:+ group_text m 1
         | None => ""
         end +:+
         match re_search_ignorecase wireless_speed_re charging with
         | Some m => "Wireless: " +:+ group_text m 1
         | None => ""
         end) ].
Proof.
  intros raw charging type_info. unfold battery_section.
  fold raw charging. subst type_info.
  destruct (re_search capacity_re raw) as [m|] eqn:Ecap.
  - apply group1_whole in Ecap as [Hg HL].
    rewrite (group_Ok _ _ _ Hg). apply capacity_strip in HL.
    destruct (re_search_ignorecase wired_speed_re charging) as [m1|] eqn:E1;
      destruct (re_search_ignorecase wireless_speed_re charging) as [m2|] eqn:E2;
      try rewrite (wired_group1 _ _ E1); try rewrite (wireless_group1 _ _ E2);
      result_simpl; rewrite HL, ?str_app_nil_r; done.
  - destruct (re_search_ignorecase wired_speed_re charging) as [m1|] eqn:E1;
      destruct (re_search_ignorecase wireless_speed_re charging) as [m2|] eqn:E2;
      try rewrite (wired_group1 _ _ E1); try rewrite (wireless_group1 _ _ E2);
      result_simpl; rewrite ?str_app_nil_r; done.
Qed.

Lemma py_or_empty_r a : py_or a "" = a.
Proof. by destruct a. Qed.

Lemma brightness_group1 s m :
  re_search_ignorecase brightness_re s = Some m ->
  group m 1 = Ok (group_text m 1).
Proof.
  intros H. apply group1_head in H as (g & t & Hg & _); [|set_solver].
  by rewrite (group_Ok _ _ _ Hg), (group_text_Some _ _ _ Hg).
Qed.

Lemma s2b_group1 s m :
  re_search s2b_re s = Some m -> group m 1 = Ok (group_text m 1).
Proof.
  intros H. apply group1_head in H as (g & t & Hg & _); [|set_solver].
  by rewrite (group_Ok _ _ _ Hg), (group_text_Some _ _ _ Hg).
Qed.

Lemma ram_group1 s m :
  re_search ram_re s = Some m -> group m 1 = Ok (group_text m 1).
Proof.
  intros H. apply group1_head in H as (g & t & Hg & _); [|set_solver].
  by rewrite (group_Ok _ _ _ Hg), (group_text_Some _ _ _ Hg).
Qed.

Lemma display_section_eq data :
  let size := get_spec data "DISPLAY" "Size" "" in
  let type := get_spec data "DISPLAY" "Type" "" in
  display_section data = Ok
    [ ("Size:", str_strip (hd "" (str_split "," size)));
      ("Features:", get_spec data "FEATURES" "Sensors" "");
      ("Resolution:", get_spec data "DISPLAY" "Resolution" "");
      ("Technology:", hd "" (str_split "," type));
      ("Refresh rate:", match re_search refresh_rate_re type with
                        | Some m => mo_text m
                        | None => ""
                        end);
      ("Screen-to-body:", match re_search s2b_re size with
                          | Some m => group_text m 1 +:+ " %"
                          | None => ""
                          end);
      ("Peak brightness:", match re_search_ignorecase brightness_re type with
                           | Some m => group_text m 1 +:+ " cd/m2 (nit)"
                           | None => ""
                           end);
      ("Front cover display:", get_spec data "DISPLAY" "Secondary display" "") ].
Proof.
  intros size type. unfold display_section. fold size type.
  rewrite py_or_empty_r.
  destruct (str_split_cons "," size) as (h1 & t1 & ->).
  destruct (str_split_cons "," type) as (h2 & t2 & ->).
  destruct (re_search refresh_rate_re type) as [m1|] eqn:E1;
    [apply group1_whole in E1 as [Hg1 _]; rewrite (group_Ok _ _ _ Hg1)|];
    (destruct (re_search s2b_re size) as [m2|] eqn:E2;
       [rewrite (s2b_group1 _ _ E2)|]);
    (destruct (re_search_ignorecase brightness_re type) as [m3|] eqn:E3;
       [rewrite (brightness_group1 _ _ E3)|]);
    result_simpl; done.
Qed.

Lemma hardware_section_eq data :
  let internal_mem := get_spec data "MEMORY" "Internal" "" in
  let sr :=
    match re_search storage_ram_re internal_mem with
    | Some m => (group_text m 1, group_text m 2)
    | None =>
        (match re_search storage_re internal_mem with
         | Some m => mo_text m
         | None => ""
         end,
         match re_search ram_re internal_mem with
         | Some m => group_text m 1
         | None => ""
         end)
    end in
  hardware_section data = Ok
    [ ("OS:", get_spec data "PLATFORM" "OS" "");
      ("GPU:", get_spec data "PLATFORM" "GPU" "");
      ("RAM:", sr.2);
      ("Processor:", get_spec data "PLATFORM" "Chipset" "");
      ("Device type:", "Smartphone");
      ("Internal storage:",
         if str_in_list (str_lower (get_spec data "MEMORY" "Card slot" ""))
              ["no"; ""]
         then sr.1 +:+ " (UFS), not expandable"
         else sr.1 +:+ " (UFS)") ].
Proof.
  intros internal_mem sr. unfold hardware_section. fold internal_mem.
  subst sr. unfold re_findall2. cbn [finditer_go].
  destruct (re_search storage_ram_re internal_mem) as [m|] eqn:E.
  - result_simpl. done.
  - destruct (re_search storage_re internal_mem) as [m1|] eqn:E1;
      [apply group1_whole in E1 as [Hg1 _]; rewrite (group_Ok _ _ _ Hg1)|];
      (destruct (re_search ram_re internal_mem) as [m2|] eqn:E2;
         [rewrite (ram_group1 _ _ E2)|]);
      result_simpl; done.
Qed.

Lemma camera_section_eq data :
  let lines := str_split newline (main_cam_spec data) in
  let cam_specs := str_strip <$> lines in
  camera_section data = Ok
    [ ("Rear:", hd "" lines);
      ("Flash:", get_spec data "MAIN CAMERA" "Features" "");
      ("Front:", py_or (get_spec data "SELFIE CAMERA" "Single" "")
                       (get_spec data "SELFIE CAMERA" "Dual" ""));
      ("Folded:", "");
      ("Main camera:", nth 0 cam_specs "");
      ("Second camera:", nth 1 cam_specs "");
      ("Third camera:", nth 2 cam_specs "");
      ("Specifications:",
         str_join " "
           (match re_search aperture_re (nth 0 cam_specs "") with
            | Some m => ["Aperture size: " +:+ str_upper (mo_text m)]
            | None => []
            end ++
            match re_search focal_length_re (nth 0 cam_specs "") with
            | Some m => ["Focal Length: " +:+ mo_text m]
            | None => []
            end));
      ("Video recording:", get_spec data "MAIN CAMERA" "Video" "") ].
Proof.
  intros lines cam_specs. unfold camera_section.
  destruct (truthy (main_cam_spec data)) eqn:Ht.
  - fold lines. fold cam_specs. subst cam_specs.
    destruct (str_split_cons newline (main_cam_spec data)) as (h & t & Hl).
    fold lines in Hl. rewrite Hl. clear Hl.
    destruct t as [|l1 [|l2 t]]; result_simpl;
      repeat (case_decide; [|simpl in *; lia]); result_simpl;
      repeat (case_decide; [simpl in *; lia|]); result_simpl;
      destruct (re_search aperture_re (str_strip h));
      destruct (re_search focal_length_re (str_strip h)); done.
  - subst cam_specs lines. apply truthy_false in Ht. rewrite Ht. done.
Qed.

Lemma re_search_spec ic r s : search_spec ic r s (re_search_flags ic r s).
Proof.
  unfold search_spec. destruct (re_search_flags ic r s) as [m|] eqn:E.
  - by apply re_search_Some.
  - by apply re_search_None.
Qed.

Lemma transform_Ok data :
  ∃ cam bat disp hw,
    camera_section data = Ok cam ∧ battery_section data = Ok bat
    ∧ display_section data = Ok disp ∧ hardware_section data = Ok hw
    ∧ transform_gsmarena_to_formatted data = Ok
        [ ("Camera", cam); ("Design", design_section data);
          ("Battery", bat); ("Display", disp);
          ("Cellular", cellular_section data); ("Hardware", hw);
          ("Multimedia", multimedia_section data);
          ("Connectivity & Features", connectivity_section data) ].
Proof.
  unfold transform_gsmarena_to_formatted.
  pose proof (camera_section_eq data) as Hc.
  pose proof (battery_section_eq data) as Hb.
  pose proof (display_section_eq data) as Hd.
  pose proof (hardware_section_eq data) as Hh.
  cbv zeta in Hc, Hb, Hd, Hh.
  do 4 eexists. rewrite Hc, Hb, Hd, Hh. result_simpl.
  split_and!; reflexivity.
Qed.

(* ================================================================== *)
(** * Category/key lookup *)

Lemma two_spaces_single c : two_spaces_to_nbsp (String c "") = String c "".
Proof. by destruct c as [[] [] [] [] [] [] [] []]. Qed.

Lemma two_spaces_other c key :
  c ≠ " "%char ->
  two_spaces_to_nbsp (String c key) = String c (two_spaces_to_nbsp key).
Proof. intros Hc. destruct c as [[] [] [] [] [] [] [] []]; done. Qed.

Lemma two_spaces_one d key :
  d ≠ " "%char ->
  two_spaces_to_nbsp (String " " (String d key))
  = String " " (two_spaces_to_nbsp (String d key)).
Proof. intros Hd. destruct d as [[] [] [] [] [] [] [] []]; done. Qed.

Lemma replace_go_0 old new c s :
  replace_go old new 0 (String c s)
  = if String.prefix old (String c s)
    then new +:+ replace_go old new (String.length old - 1) s
    else String c (replace_go old new 0 s).
Proof. reflexivity. Qed.

Lemma replace_go_S old new k c s :
  replace_go old new (S k) (String c s) = replace_go old new k s.
Proof. reflexivity. Qed.

Lemma prefix_nil s : String.prefix "" s = true.
Proof. by destruct s. Qed.

Lemma prefix_cons a s1 b s2 :
  String.prefix (String a s1) (String b s2)
  = if ascii_dec a b then String.prefix s1 s2 else false.
Proof. reflexivity. Qed.

Lemma replace_two_spaces_lt n :
  ∀ key, String.length key < n ->
    replace_go "  " nbsp 0 key = two_spaces_to_nbsp key.
Proof.
  induction n as [|n IH]; intros key Hlen; [lia|].
  destruct key as [|c [|d key]]; [done| |].
  - rewrite two_spaces_single, replace_go_0, prefix_cons.
    by destruct (ascii_dec " " c).
  - rewrite replace_go_0, !prefix_cons, prefix_nil.
    destruct (ascii_dec " " c) as [<-|Hc].
    + destruct (ascii_dec " " d) as [<-|Hd].
      * change (String.length "  " - 1) with 1. rewrite replace_go_S.
        replace (nbsp +:+ replace_go "  " nbsp 0 key)
          with (String "160" (replace_go "  " nbsp 0 key)) by done.
        change (two_spaces_to_nbsp (String " " (String " " key)))
          with (String "160" (two_spaces_to_nbsp key)).
        f_equal. apply IH. simpl in *. lia.
      * rewrite two_spaces_one by done. f_equal. apply IH. simpl in *. lia.
    + rewrite two_spaces_other by done. f_equal. apply IH. simpl in *. lia.
Qed.

Lemma replace_two_spaces key :
  str_replace "  " nbsp key = two_spaces_to_nbsp key.
Proof. apply (replace_two_spaces_lt (S (String.length key))). lia. Qed.

Lemma get_spec_raw_field data category key dflt :
  get_spec data category key dflt
  = default dflt (raw_field data category (two_spaces_to_nbsp key)).
Proof.
  unfold get_spec, raw_field, dict_get. rewrite replace_two_spaces.
  destruct (default ∅ (raw_specs data) !! category) as [entries|]; simpl.
  - by destruct (entries !! two_spaces_to_nbsp key).
  - by rewrite lookup_empty.
Qed.

(** C3. The lookup [get_spec] is a total function of the record, the
    category, the key and the default (it cannot raise).  It turns every
    two adjacent plain spaces of the key, taken from the left, into one
    non-breaking space, and returns the value stored under the category
    and that key when both are present, the default otherwise: a missing
    category and a missing key both give the default, and a key of two
    plain spaces reads the entry stored under one non-breaking space. *)
Theorem C3_get_spec_lookup (data : raw_record) (category key dflt : string) :
  let specs := default ∅ (raw_specs data) in
  let key' := two_spaces_to_nbsp key in
  str_replace "  " nbsp key = key'
  ∧ get_spec data category key dflt
    = match specs !! category with
      | Some entries =>
          match entries !! key' with
          | Some value => value
          | None => dflt
          end
      | None => dflt
      end
  ∧ (specs !! category = None -> get_spec data category key dflt = dflt)
  ∧ (∀ entries, specs !! category = Some entries -> entries !! key' = None ->
       get_spec data category key dflt = dflt)
  ∧ two_spaces_to_nbsp "  " = nbsp.
Proof.
  intros specs key'. split; [apply replace_two_spaces|].
  assert (get_spec data category key dflt
          = match specs !! category with
            | Some entries =>
                match entries !! key' with
                | Some value => value
                | None => dflt
                end
            | None => dflt
            end) as Heq.
  { rewrite get_spec_raw_field. unfold raw_field. fold specs key'.
    by destruct (specs !! category). }
  split_and!; [done| | |done].
  - intros Hc. by rewrite Heq, Hc.
  - intros entries Hc Hk. by rewrite Heq, Hc, Hk.
Qed.

(* ================================================================== *)
(** * A record without specs *)

(** C1 (as stated, refuted).  On a record whose specs are empty the
    normaliser returns a record with four fields that are not the empty
    string. *)
Lemma C1_counterexample :
  ∃ out, transform_gsmarena_to_formatted (record_of ∅) = Ok out
    ∧ nonempty_fields out
      = [ ("Design", "Keys:", "Right: Volume control, Lock/Unlock key");
          ("Hardware", "Device type:", "Smartphone");
          ("Hardware", "Internal storage:", " (UFS), not expandable");
          ("Multimedia", "Screen mirroring:", "Wireless screen share") ].
Proof. eexists. split; [by vm_compute|]. by vm_compute. Qed.

(** C1 (amended).  For every raw record whose specs mapping is empty the
    normaliser does not raise and returns the record of the fixed schema
    in which every field is the empty string except four: the constants
    Design/"Keys:", Hardware/"Device type:" and Multimedia/"Screen
    mirroring:", and Hardware/"Internal storage:", which is the template
    " (UFS), not expandable" around an empty storage size. *)
Theorem C1_empty_specs (data : raw_record) :
  raw_specs data = Some ∅ ->
  ∃ out, transform_gsmarena_to_formatted data = Ok out
    ∧ shape out = schema
    ∧ nonempty_fields out
      = [ ("Design", "Keys:", "Right: Volume control, Lock/Unlock key");
          ("Hardware", "Device type:", "Smartphone");
          ("Hardware", "Internal storage:", " (UFS), not expandable");
          ("Multimedia", "Screen mirroring:", "Wireless screen share") ].
Proof.
  intros H. destruct data as [url name image highlights specs].
  simpl in H. subst specs.
  eexists. split; [by vm_compute|]. split; by vm_compute.
Qed.

Lemma C1_empty_specs_witness :
  ∃ out, transform_gsmarena_to_formatted (record_of ∅) = Ok out
    ∧ shape out = schema
    ∧ nonempty_fields out
      = [ ("Design", "Keys:", "Right: Volume control, Lock/Unlock key");
          ("Hardware", "Device type:", "Smartphone");
          ("Hardware", "Internal storage:", " (UFS), not expandable");
          ("Multimedia", "Screen mirroring:", "Wireless screen share") ].
Proof. apply (C1_empty_specs (record_of ∅)). reflexivity. Defined.

(* ================================================================== *)
(** * The camera section *)




Example rear_camera_dual_over_single :
  ∃ out,
    transform_gsmarena_to_formatted
      (record_of {[ "MAIN CAMERA" :=
                      {[ "Dual" := "50 MP, f/1.8, 24mm (wide)";
                         "Single" := "8 MP" ]} ]}) = Ok out
    ∧ field out "Camera" "Rear:" = Some "50 MP, f/1.8, 24mm (wide)"
    ∧ field out "Camera" "Main camera:" = Some "50 MP, f/1.8, 24mm (wide)"
    ∧ field out "Camera" "Specifications:"
      = Some "Aperture size: F/1.8 Focal Length: 24mm".
Proof. eexists. split; [by vm_compute|]. split_and!; by vm_compute. Qed.

Example rear_camera_triple_before_quad :
  ∃ out,
    transform_gsmarena_to_formatted
      (record_of {[ "MAIN CAMERA" :=
                      {[ "Quad" := "48 MP"; "Triple" := "12 MP" ]} ]}) = Ok out
    ∧ field out "Camera" "Rear:" = Some "12 MP".
Proof. eexists. split; by vm_compute. Qed.

(* ================================================================== *)
(** * The battery section *)

Lemma battery_fields data out :
  transform_gsmarena_to_formatted data = Ok out ->
  ∃ bat, battery_section data = Ok bat
       ∧ ∀ label, field out "Battery" label = dict_lookup bat label.
Proof.
  destruct (transform_Ok data) as (cam & bat & disp & hw & _ & Hb & _ & _ & Ht).
  rewrite Ht. intros [= <-]. by exists bat.
Qed.

(** C7 (as stated, refuted).  For the battery type "Li-Po 5000 mAh" the
    capacity matched is "5000 mAh", and the raw string with that match
    removed is "Li-Po " with its trailing space; the normaliser gives
    "Li-Po". *)
Lemma C7_counterexample :
  ∃ out,
    transform_gsmarena_to_formatted
      (record_of {[ "BATTERY" := {[ "Type" := "Li-Po 5000 mAh" ]} ]}) = Ok out
    ∧ field out "Battery" "Capacity:" = Some "5000 mAh"
    ∧ battery_type_as_specified "Li-Po 5000 mAh" = "Li-Po "
    ∧ field out "Battery" "Type:" = Some "Li-Po".
Proof. eexists. split; [by vm_compute|]. split_and!; by vm_compute. Qed.

(** C7 (amended).  For every BATTERY/Type raw string, "Capacity:" is the
    text of the first match of [\d+\s*mAh] (the leftmost place where a run
    of digits, optional white space and "mAh" starts), empty if there is
    none.  "Type:" is the raw string with every occurrence of that text
    removed and then commas and spaces stripped from both ends (the raw
    string itself when there is no match), followed by
    ", Not user replaceable" exactly when that remaining text contains
    "non-removable" in any letter case.  The raw value
    "Li-Ion 5000 mAh, non-removable" gives "5000 mAh" and
    "Li-Ion , non-removable, Not user replaceable". *)
Theorem C7_battery_type_and_capacity (data : raw_record) :
  let raw := get_spec data "BATTERY" "Type" "" in
  let found := re_search capacity_re raw in
  let remaining :=
    match found with
    | Some m => str_strip_chars ", " (str_replace (mo_text m) "" raw)
    | None => raw
    end in
  ∃ out, transform_gsmarena_to_formatted data = Ok out
    ∧ search_spec false capacity_re raw found
    ∧ field out "Battery" "Capacity:"
      = Some (match found with Some m => mo_text m | None => "" end)
    ∧ field out "Battery" "Type:"
      = Some (if str_contains "non-removable" (str_lower remaining)
              then remaining +:+ ", Not user replaceable" else remaining)
    ∧ (raw = "Li-Ion 5000 mAh, non-removable" ->
         field out "Battery" "Capacity:" = Some "5000 mAh"
         ∧ field out "Battery" "Type:"
           = Some "Li-Ion , non-removable, Not user replaceable").
Proof.
  intros raw found remaining.
  destruct (transform_Ok data) as (cam & bat & disp & hw & _ & _ & _ & _ & Ht).
  eexists. split; [exact Ht|]. split; [apply re_search_spec|].
  destruct (battery_fields _ _ Ht) as (bat' & Hb & Hf).
  rewrite battery_section_eq in Hb. injection Hb as <-.
  fold raw in Hf. fold found in Hf. fold remaining in Hf.
  assert (field _ "Battery" "Capacity:"
          = Some (match found with Some m => mo_text m | None => "" end)) as Hcap
    by (rewrite Hf; reflexivity).
  assert (field _ "Battery" "Type:"
          = Some (if str_contains "non-removable" (str_lower remaining)
                  then remaining +:+ ", Not user replaceable" else remaining))
    as Hty by (rewrite Hf; reflexivity).
  split_and!; [done|done|].
  intros Hraw. rewrite Hcap, Hty. subst remaining found. rewrite Hraw.
  split; by vm_compute.
Qed.

Example battery_scenario :
  ∃ out,
    transform_gsmarena_to_formatted
      (record_of {[ "BATTERY" :=
                      {[ "Type" := "Li-Ion 5000 mAh, non-removable" ]} ]})
    = Ok out
    ∧ field out "Battery" "Capacity:" = Some "5000 mAh"
    ∧ field out "Battery" "Type:"
      = Some "Li-Ion , non-removable, Not user replaceable".
Proof. eexists. split; [by vm_compute|]. split; by vm_compute. Qed.

(** Every occurrence of the matched text goes, not only the match. *)
Example battery_type_repeated_capacity :
  ∃ out,
    transform_gsmarena_to_formatted
      (record_of {[ "BATTERY" :=
                      {[ "Type" := "5000 mAh (typ), 5000 mAh (min)" ]} ]})
    = Ok out
    ∧ field out "Battery" "Type:" = Some "(typ),  (min)".
Proof. eexists. split; by vm_compute. Qed.

(** C10. For every BATTERY/Charging raw string, "Max charge speed:" is
    "Wired: x" when [(\d+(\.\d+)?W)\s+wired] matches (any letter case; x
    is group 1 of the first match), followed with nothing in between by
    "Wireless: y" when [(\d+(\.\d+)?W)\s+wireless] matches; a part whose
    pattern does not match is absent, and the field is empty when neither
    matches.  "45W wired, 15W wireless" gives "Wired: 45WWireless: 15W". *)
Theorem C10_max_charge_speed (data : raw_record) :
  let charging := get_spec data "BATTERY" "Charging" "" in
  let wired := re_search_ignorecase wired_speed_re charging in
  let wireless := re_search_ignorecase wireless_speed_re charging in
  ∃ out, transform_gsmarena_to_formatted data = Ok out
    ∧ search_spec true wired_speed_re charging wired
    ∧ search_spec true wireless_speed_re charging wireless
    ∧ field out "Battery" "Max charge speed:"
      = Some (match wired with
              | Some m => "Wired: " +:+ group_text m 1
              | None => ""
              end +:+
              match wireless with
              | Some m => "Wireless: " +:+ group_text m 1
              | None => ""
              end)
    ∧ (wired = None -> wireless = None ->
         field out "Battery" "Max charge speed:" = Some "")
    ∧ (charging = "45W wired, 15W wireless" ->
         field out "Battery" "Max charge speed:"
         = Some "Wired: 45WWireless: 15W").
Proof.
  intros charging wired wireless.
  destruct (transform_Ok data) as (cam & bat & disp & hw & _ & _ & _ & _ & Ht).
  eexists. split; [exact Ht|].
  split; [apply re_search_spec|]. split; [apply re_search_spec|].
  destruct (battery_fields _ _ Ht) as (bat' & Hb & Hf).
  rewrite battery_section_eq in Hb. injection Hb as <-.
  fold charging in Hf. fold wired wireless in Hf.
  assert (field _ "Battery" "Max charge speed:"
          = Some (match wired with
                  | Some m => "Wired: " +:+ group_text m 1
                  | None => ""
                  end +:+
                  match wireless with
                  | Some m => "Wireless: " +:+ group_text m 1
                  | None => ""
                  end)) as Hsp by (rewrite Hf; reflexivity).
  split_and!; [done| |].
  - intros H1 H2. by rewrite Hsp, H1, H2.
  - intros Hch. rewrite Hsp. subst wired wireless. rewrite Hch. by vm_compute.
Qed.

Example max_charge_speed_scenarios :
  let speed charging :=
    out ← transform_gsmarena_to_formatted
            (record_of {[ "BATTERY" := {[ "Charging" := charging ]} ]});
    Ok (field out "Battery" "Max charge speed:") in
  speed "45W wired, 15W wireless" = Ok (Some "Wired: 45WWireless: 15W")
  ∧ speed "67W wired, PD3.0" = Ok (Some "Wired: 67W")
  ∧ speed "7.5w  Wireless" = Ok (Some "Wireless: 7.5w")
  ∧ speed "Reverse wired" = Ok (Some "").
Proof. split_and!; by vm_compute. Qed.

(* ================================================================== *)
(** * The display section *)

Lemma display_fields data out :
  transform_gsmarena_to_formatted data = Ok out ->
  ∃ disp, display_section data = Ok disp
        ∧ ∀ label, field out "Display" label = dict_lookup disp label.
Proof.
  destruct (transform_Ok data) as (cam & bat & disp & hw & _ & _ & Hd & _ & Ht).
  rewrite Ht. intros [= <-]. by exists disp.
Qed.

(** C9. For every record the normaliser returns a record (no error),
    in which "Refresh rate:" is the text of the first match of [\d+Hz] in
    DISPLAY/Type and "Peak brightness:" is the number of the first match
    of [(\d+)\s*nits\s*\(peak\)] (any letter case) followed by
    " cd/m2 (nit)"; each of the two depends on its own pattern only and is
    the empty string when its pattern does not match.  The raw value
    "AMOLED, 120Hz, 1200 nits (peak)" gives "120Hz" and
    "1200 cd/m2 (nit)". *)
Theorem C9_display_extraction (data : raw_record) :
  let type := get_spec data "DISPLAY" "Type" "" in
  let refresh := re_search refresh_rate_re type in
  let brightness := re_search_ignorecase brightness_re type in
  ∃ out, transform_gsmarena_to_formatted data = Ok out
    ∧ search_spec false refresh_rate_re type refresh
    ∧ search_spec true brightness_re type brightness
    ∧ field out "Display" "Refresh rate:"
      = Some (match refresh with Some m => mo_text m | None => "" end)
    ∧ field out "Display" "Peak brightness:"
      = Some (match brightness with
              | Some m => group_text m 1 +:+ " cd/m2 (nit)"
              | None => ""
              end)
    ∧ (refresh = None -> field out "Display" "Refresh rate:" = Some "")
    ∧ (brightness = None -> field out "Display" "Peak brightness:" = Some "")
    ∧ (type = "AMOLED, 120Hz, 1200 nits (peak)" ->
         field out "Display" "Refresh rate:" = Some "120Hz"
         ∧ field out "Display" "Peak brightness:" = Some "1200 cd/m2 (nit)").
Proof.
  intros type refresh brightness.
  destruct (transform_Ok data) as (cam & bat & disp & hw & _ & _ & _ & _ & Ht).
  eexists. split; [exact Ht|].
  split; [apply re_search_spec|]. split; [apply re_search_spec|].
  destruct (display_fields _ _ Ht) as (disp' & Hd & Hf).
  rewrite display_section_eq in Hd. injection Hd as <-.
  fold type in Hf. fold refresh brightness in Hf.
  assert (field _ "Display" "Refresh rate:"
          = Some (match refresh with Some m => mo_text m | None => "" end))
    as Hr by (rewrite Hf; reflexivity).
  assert (field _ "Display" "Peak brightness:"
          = Some (match brightness with
                  | Some m => group_text m 1 +:+ " cd/m2 (nit)"
                  | None => ""
                  end)) as Hp by (rewrite Hf; reflexivity).
  split_and!; [done|done| | |].
  - intros H. by rewrite Hr, H.
  - intros H. by rewrite Hp, H.
  - intros Hty. rewrite Hr, Hp. subst refresh brightness. rewrite Hty.
    split; by vm_compute.
Qed.

Example display_scenario :
  ∃ out,
    transform_gsmarena_to_formatted
      (record_of {[ "DISPLAY" :=
                      {[ "Type" := "AMOLED, 120Hz, 1200 nits (peak)" ]} ]})
    = Ok out
    ∧ field out "Display" "Technology:" = Some "AMOLED"
    ∧ field out "Display" "Refresh rate:" = Some "120Hz"
    ∧ field out "Display" "Peak brightness:" = Some "1200 cd/m2 (nit)".
Proof. eexists. split; [by vm_compute|]. split_and!; by vm_compute. Qed.

(* ================================================================== *)
(** * The hardware section *)

Lemma hardware_fields data out :
  transform_gsmarena_to_formatted data = Ok out ->
  ∃ hw, hardware_section data = Ok hw
      ∧ ∀ label, field out "Hardware" label = dict_lookup hw label.
Proof.
  destruct (transform_Ok data) as (cam & bat & disp & hw & _ & _ & _ & Hh & Ht).
  rewrite Ht. intros [= <-]. by exists hw.
Qed.

Lemma str_lower_empty s : str_lower s = "" ↔ s = "".
Proof. by destruct s. Qed.

Lemma card_slot_test data :
  str_in_list (str_lower (get_spec data "MEMORY" "Card slot" "")) ["no"; ""]
  = match raw_field data "MEMORY" "Card slot" with
    | None => true
    | Some v => bool_decide (v = "" ∨ str_lower v = "no")
    end.
Proof.
  rewrite get_spec_raw_field.
  change (two_spaces_to_nbsp "Card slot") with "Card slot".
  destruct (raw_field data "MEMORY" "Card slot") as [v|]; [|done].
  simpl. unfold str_in_list. simpl. rewrite orb_false_r.
  destruct (String.eqb_spec (str_lower v) "no") as [Hno|Hno].
  - symmetry. apply bool_decide_eq_true. by right.
  - destruct (String.eqb_spec (str_lower v) "") as [He|He].
    + symmetry. apply bool_decide_eq_true. left. by apply str_lower_empty.
    + symmetry. apply bool_decide_eq_false. intros [->|?]; done.
Qed.

(** C8 (as stated, refuted).  With a MEMORY/"Card slot" field that is
    present and holds the empty string (so neither absent nor "no") the
    internal storage still gets the suffix. *)
Lemma C8_counterexample :
  let data :=
    record_of {[ "MEMORY" := {[ "Internal" := "128GB 8GB RAM";
                                "Card slot" := "" ]} ]} in
  ∃ out, transform_gsmarena_to_formatted data = Ok out
    ∧ raw_field data "MEMORY" "Card slot" = Some ""
    ∧ str_lower "" ≠ "no"
    ∧ field out "Hardware" "Internal storage:"
      = Some "128GB (UFS), not expandable".
Proof. eexists. split; [by vm_compute|]. split_and!; by vm_compute. Qed.

(** C8 (amended).  For every MEMORY/Internal raw string the storage size
    and the RAM size are those of the first pair that
    [(\d+\s*(?:GB|TB))\s+(\d+\s*GB)\s+RAM] matches; when it matches nowhere
    they are the first match of [\d+\s*(?:GB|TB)] and the size in the first
    match of [(\d+\s*GB)\s+RAM], each empty when its pattern does not
    match.  "RAM:" is the RAM size; "Internal storage:" is the storage
    size followed by " (UFS)", and then by ", not expandable" exactly when
    MEMORY/"Card slot" is absent, is the empty string, or is "no" in any
    letter case.  "256GB 12GB RAM" with card slot "No" gives "12GB" and
    "256GB (UFS), not expandable". *)
Theorem C8_storage_and_ram (data : raw_record) :
  let internal := get_spec data "MEMORY" "Internal" "" in
  let pairs := re_findall2 storage_ram_re internal in
  let storage :=
    match pairs with
    | first :: _ => first.1
    | [] => match re_search storage_re internal with
            | Some m => mo_text m
            | None => ""
            end
    end in
  let ram :=
    match pairs with
    | first :: _ => first.2
    | [] => match re_search ram_re internal with
            | Some m => group_text m 1
            | None => ""
            end
    end in
  let not_expandable :=
    match raw_field data "MEMORY" "Card slot" with
    | None => true
    | Some v => bool_decide (v = "" ∨ str_lower v = "no")
    end in
  ∃ out, transform_gsmarena_to_formatted data = Ok out
    ∧ head pairs
      = (λ m, (group_text m 1, group_text m 2))
          <$> re_search storage_ram_re internal
    ∧ search_spec false storage_ram_re internal
        (re_search storage_ram_re internal)
    ∧ field out "Hardware" "RAM:" = Some ram
    ∧ field out "Hardware" "Internal storage:"
      = Some (if not_expandable
              then storage +:+ " (UFS), not expandable"
              else storage +:+ " (UFS)")
    ∧ (internal = "256GB 12GB RAM" ->
       raw_field data "MEMORY" "Card slot" = Some "No" ->
         field out "Hardware" "RAM:" = Some "12GB"
         ∧ field out "Hardware" "Internal storage:"
           = Some "256GB (UFS), not expandable").
Proof.
  intros internal pairs storage ram not_expandable.
  destruct (transform_Ok data) as (cam & bat & disp & hw & _ & _ & _ & _ & Ht).
  match type of Ht with _ = Ok ?o => set (out := o) in * end.
  exists out. split; [exact Ht|].
  split; [apply re_findall2_head|]. split; [apply re_search_spec|].
  destruct (hardware_fields _ _ Ht) as (hw' & Hh & Hf).
  rewrite hardware_section_eq, card_slot_test in Hh. injection Hh as <-.
  fold internal in Hf. fold not_expandable in Hf.
  pose proof (re_findall2_head storage_ram_re internal) as Hhd.
  fold pairs in Hhd.
  assert (field out "Hardware" "RAM:" = Some ram) as Hram.
  { rewrite Hf. subst ram. simpl.
    destruct (re_search storage_ram_re internal) as [m|];
      destruct pairs as [|p ps]; simpl in Hhd; try done.
    by injection Hhd as ->. }
  assert (field out "Hardware" "Internal storage:"
          = Some (if not_expandable
                  then storage +:+ " (UFS), not expandable"
                  else storage +:+ " (UFS)")) as Hst.
  { rewrite Hf. subst storage. simpl.
    destruct (re_search storage_ram_re internal) as [m|];
      destruct pairs as [|p ps]; simpl in Hhd; try done.
    by injection Hhd as ->. }
  split_and!; [done|done|].
  intros Hin Hslot. rewrite Hram, Hst.
  subst ram storage not_expandable pairs. rewrite Hin, Hslot.
  split; by vm_compute.
Qed.

Example hardware_scenario :
  ∃ out,
    transform_gsmarena_to_formatted
      (record_of {[ "MEMORY" := {[ "Internal" := "256GB 12GB RAM";
                                   "Card slot" := "No" ]} ]})
    = Ok out
    ∧ field out "Hardware" "RAM:" = Some "12GB"
    ∧ field out "Hardware" "Internal storage:"
      = Some "256GB (UFS), not expandable".
Proof. eexists. split; [by vm_compute|]. split; by vm_compute. Qed.

Example hardware_fallback_and_card_slot :
  let storage internal slot :=
    out ← transform_gsmarena_to_formatted
            (record_of {[ "MEMORY" := {[ "Internal" := internal;
                                         "Card slot" := slot ]} ]});
    Ok (field out "Hardware" "RAM:", field out "Hardware" "Internal storage:") in
  storage "64GB" "microSDXC" = Ok (Some "", Some "64GB (UFS)")
  ∧ storage "8GB RAM" "NO" = Ok (Some "8GB", Some "8GB (UFS), not expandable")
  ∧ storage "128GB 8GB RAM, 1TB 16GB RAM" "Unspecified"
    = Ok (Some "8GB", Some "128GB (UFS)").
Proof. split_and!; by vm_compute. Qed.

(* ================================================================== *)
(** * The crawl ledger *)


(** They come in the order of discovery. *)
Lemma new_links_sublist all_links known :
  new_links all_links known `sublist_of` all_links.
Proof. apply sublist_filter. Qed.





(** C4 (the defect).  On a ledger file that exists and is empty, which
    [load_scraped_links_from_csv] reads as "no link yet", [append_to_csv]
    writes no header, so the row it adds is the one the next load skips
    as the header: the URL just appended is not loaded, and the next run
    takes it for a new link again. *)
Theorem C4_append_to_empty_ledger_is_lost :
  let url := "https://www.gsmarena.com/acme_one-1.php" in
  let empty_file : csv_file := Some [] in
  let ledger := append_to_csv "Acme One" url empty_file in
  load_scraped_links_from_csv empty_file = ∅
  ∧ ledger = Some [["Acme One"; url]]
  ∧ load_scraped_links_from_csv ledger = ∅
  ∧ new_links [url] (load_scraped_links_from_csv ledger) = [url].
Proof. split_and!; by vm_compute. Qed.

(* ================================================================== *)
(** * The batch loop *)

Section BatchFacts.
Variable scrape_device : string -> option raw_record.
Variable can_write : string -> bool.
Variable splitext_ext : string -> string.

Abbreviation process := (process_link scrape_device can_write splitext_ext).
Abbreviation loop := (scrape_loop scrape_device can_write splitext_ext).




(** An item whose raw JSON file cannot be written raises out of the loop:
    the ledger is as it was, and the links after it are not visited. *)
Lemma scrape_loop_write_failed link links raw_data w :
  scrape_device link = Some raw_data ->
  can_write (path_join "raw_data"
               (safe_name_of (raw_name raw_data) +:+ ".json")) = false ->
  loop (link :: links) w = (Raise OSError, w).
Proof.
  intros Hs Hw. simpl. unfold mbind at 1. unfold io_bind at 1.
  unfold process_link. rewrite Hs.
  destruct (transform_Ok raw_data) as (? & ? & ? & ? & _ & _ & _ & _ & ->).
  unfold mbind, io_bind, lift, dump_raw. by rewrite Hw.
Qed.

(** With every file writable nothing raises, whatever the extractor, the
    image download and the notification do: the loop visits every link. *)
Lemma process_link_writable link w :
  (∀ path, can_write path = true) -> (process link w).1 = Ok ().
Proof.
  intros Hw. unfold process_link.
  destruct (scrape_device link) as [raw_data|]; [|done].
  destruct (transform_Ok raw_data) as (? & ? & ? & ? & _ & _ & _ & _ & ->).
  unfold mbind, io_bind, lift, dump_raw, dump_formatted, append_to_csv_io.
  rewrite !Hw. destruct (raw_image raw_data) as [url|]; simpl; [|done].
  by destruct (truthy url).
Qed.

Lemma scrape_loop_writable links w :
  (∀ path, can_write path = true) -> (loop links w).1 = Ok ().
Proof.
  intros Hw. revert w. induction links as [|link links IH]; intros w; [done|].
  simpl. unfold mbind at 1. unfold io_bind at 1.
  pose proof (process_link_writable link w Hw) as Hp.
  destruct (process link w) as [[[]|e] w']; simpl in Hp; [|done]. apply IH.
Qed.
End BatchFacts.

(** C2 (the defect).  Two new links, both pages extracted; the raw JSON
    file of the first item cannot be written.  The [OSError] leaves the
    loop: the run ends with the exception, the ledger has no entry (none
    for the first item, as the claim says), and the second item is never
    processed, where the claim has the batch go on.  With every file
    writable the same run records both items. *)
Theorem C2_write_failure_aborts_batch :
  main two_links two_pages first_raw_file_unwritable no_extension fresh_world
  = (Raise OSError, fresh_world)
  ∧ (main two_links two_pages (λ _, true) no_extension fresh_world).1 = Ok ()
  ∧ w_csv (main two_links two_pages (λ _, true) no_extension fresh_world).2
    = Some [ ["Device Name"; "URL"];
             ["Acme One"; "https://www.gsmarena.com/acme_one-1.php"];
             ["Acme Two"; "https://www.gsmarena.com/acme_two-2.php"] ].
Proof. split_and!; by vm_compute. Qed.

(** The part of the claim that holds: a failed extraction skips the item,
    writes no ledger entry, and the next item is processed. *)
Example extraction_failure_is_isolated :
  let pages url :=
    if String.eqb url "https://www.gsmarena.com/acme_one-1.php"
    then None else two_pages url in
  let run := main two_links pages (λ _, true) no_extension fresh_world in
  run.1 = Ok ()
  ∧ w_csv run.2
    = Some [ ["Device Name"; "URL"];
             ["Acme Two"; "https://www.gsmarena.com/acme_two-2.php"] ]
  ∧ (w_raw run.2).*1 = ["raw_data/Acme_Two.json"].
Proof. split_and!; by vm_compute. Qed.

(* ================================================================== *)
(** * The fixed schema and absent data *)

Lemma get_spec_absent data category key :
  raw_field data category (two_spaces_to_nbsp key) = None ->
  get_spec data category key "" = "".
Proof. intros H. by rewrite get_spec_raw_field, H. Qed.

Ltac absent_sources Habs :=
  repeat match goal with
  | |- context [get_spec ?d ?c ?k ""] =>
      rewrite (get_spec_absent d c k)
        by (apply (Habs (c, two_spaces_to_nbsp k)); vm_compute;
            repeat constructor)
  end.

(** A label all of whose raw fields are missing has the empty string. *)
Lemma absent_data_empty data out :
  transform_gsmarena_to_formatted data = Ok out ->
  Forall (λ e : string * string * list (string * string),
            (∀ src, src ∈ e.2 -> raw_field data src.1 src.2 = None) ->
            field out e.1.1 e.1.2 = Some "")
         field_sources.
Proof.
  intros Hout.
  destruct (transform_Ok data) as (cam & bat & disp & hw & Hc & Hb & Hd & Hh & Ht).
  rewrite Ht in Hout. injection Hout as <-.
  rewrite camera_section_eq in Hc. rewrite battery_section_eq in Hb.
  rewrite display_section_eq in Hd. rewrite hardware_section_eq in Hh.
  injection Hc as <-. injection Hb as <-. injection Hd as <-. injection Hh as <-.
  unfold field_sources, main_camera_keys, main_cam_spec, design_section,
    cellular_section, multimedia_section, connectivity_section.
  repeat (apply Forall_cons; split); [..|by apply Forall_nil];
    intros Habs; cbn [fst snd] in *;
    lazy beta iota zeta
         delta [field dict_lookup String.eqb Ascii.eqb Bool.eqb
                mbind option_bind fst snd];
    absent_sources Habs; by vm_compute.
Qed.

Example field_sources_cover_schema :
  labels_of schema
  ≡ₚ field_sources.*1
     ++ [ ("Design", "Keys:"); ("Hardware", "Device type:");
          ("Hardware", "Internal storage:");
          ("Multimedia", "Screen mirroring:") ].
Proof.
  apply (bool_decide_unpack _). by vm_compute.
Qed.

(** C5 (as stated, refuted).  With no specs at all the data of Hardware
    "Internal storage:" (MEMORY/Internal and MEMORY/"Card slot") is absent,
    and the label does not hold the empty string. *)
Lemma C5_counterexample :
  ∃ out, transform_gsmarena_to_formatted (record_of ∅) = Ok out
    ∧ raw_field (record_of ∅) "MEMORY" "Internal" = None
    ∧ raw_field (record_of ∅) "MEMORY" "Card slot" = None
    ∧ field out "Hardware" "Internal storage:" = Some " (UFS), not expandable".
Proof. eexists. split; [by vm_compute|]. split_and!; by vm_compute. Qed.

(** C5 (amended).  For every raw record the normaliser returns a record
    (it does not raise) whose sections are exactly the eight of the
    schema, in order, each holding exactly its fixed labels, whatever raw
    fields are present.  A label whose raw fields are all missing is
    still a key: it holds the empty string, except Hardware
    "Internal storage:", which then holds " (UFS), not expandable"; the
    labels Design "Keys:", Hardware "Device type:" and Multimedia
    "Screen mirroring:" read nothing and always hold their constant. *)
Theorem C5_fixed_schema (data : raw_record) :
  ∃ out, transform_gsmarena_to_formatted data = Ok out
    ∧ shape out = schema
    ∧ (∀ section label sources,
         (section, label, sources) ∈ field_sources ->
         (∀ category key, (category, key) ∈ sources ->
            raw_field data category key = None) ->
         field out section label = Some "")
    ∧ (raw_field data "MEMORY" "Internal" = None ->
       raw_field data "MEMORY" "Card slot" = None ->
         field out "Hardware" "Internal storage:"
         = Some " (UFS), not expandable")
    ∧ field out "Design" "Keys:"
      = Some "Right: Volume control, Lock/Unlock key"
    ∧ field out "Hardware" "Device type:" = Some "Smartphone"
    ∧ field out "Multimedia" "Screen mirroring:" = Some "Wireless screen share".
Proof.
  destruct (transform_Ok data) as (cam & bat & disp & hw & Hc & Hb & Hd & Hh & Ht).
  match type of Ht with _ = Ok ?o => set (out := o) in * end.
  exists out. split; [exact Ht|]. split_and!.
  - subst out.
    rewrite camera_section_eq in Hc. rewrite battery_section_eq in Hb.
    rewrite display_section_eq in Hd. rewrite hardware_section_eq in Hh.
    injection Hc as <-. injection Hb as <-. injection Hd as <-.
    injection Hh as <-. reflexivity.
  - intros section label sources Hin Habs.
    pose proof (absent_data_empty data out Ht) as Hall.
    rewrite Forall_forall in Hall. apply (Hall _ Hin).
    intros [category key]. apply Habs.
  - intros Hint Hslot. subst out.
    rewrite hardware_section_eq, card_slot_test, Hslot in Hh.
    rewrite (get_spec_absent data "MEMORY" "Internal") in Hh by done.
    injection Hh as <-. by vm_compute.
  - done.
  - subst out. rewrite hardware_section_eq in Hh. by injection Hh as <-.
  - done.
Qed.

(* ================================================================== *)
(** * The page extractor *)

(** One row, case by case. *)
Lemma scrape_row_Some category specs row st :
  scrape_row category specs row = Some st ->
  let category' :=
    match row_th row with [text] => str_strip text | _ => category end in
  let specs' :=
    match row_th row with
    | [text] =>
        if bool_decide (is_Some (specs !! category')) then specs
        else <[category' := ∅]> specs
    | _ => specs
    end in
  st.1 = category'
  ∧ st.2 = match row_ttl row, row_nfo row with
           | [key], [val] =>
               if truthy category'
               then <[category' := <[str_strip key := str_strip val]>
                                     (default ∅ (specs' !! category'))]> specs'
               else specs'
           | _, _ => specs'
           end.
Proof.
  unfold scrape_row.
  destruct row as [[|t [|t2 ths]] [|k [|k2 ttls]] [|v [|v2 nfos]]]; simpl;
    intros H; simplify_eq/=; try done;
    repeat (first [ case_bool_decide | case_match ]; simplify_option_eq);
    try done; try lia.
Qed.

Lemma last_entry_app category key l1 l2 :
  last_entry category key (l1 ++ l2)
  = match last_entry category key l2 with
    | Some v => Some v
    | None => last_entry category key l1
    end.
Proof.
  induction l1 as [|[[c k] v] l1 IH]; simpl.
  - by destruct (last_entry category key l2).
  - rewrite IH. by destruct (last_entry category key l2).
Qed.

Lemma last_entry_elem category key entries v :
  last_entry category key entries = Some v -> (category, key, v) ∈ entries.
Proof.
  induction entries as [|[[c k] v0] entries IH]; simpl; [done|].
  destruct (last_entry category key entries) as [v'|].
  - intros [= ->]. right. by apply IH.
  - destruct (String.eqb_spec c category) as [->|]; [|done].
    destruct (String.eqb_spec k key) as [->|]; [|done].
    intros [= ->]. by left.
Qed.

Lemma specs_field_insert specs category entries c k :
  specs_field (<[category := entries]> specs) c k
  = if decide (category = c) then entries !! k else specs_field specs c k.
Proof.
  unfold specs_field. rewrite lookup_insert. by case_decide.
Qed.

Lemma scrape_row_field category specs row st c k :
  scrape_row category specs row = Some st ->
  specs_field st.2 c k
  = match last_entry c k (rows_entries category [row]) with
    | Some v => Some v
    | None => specs_field specs c k
    end.
Proof.
  intros H. apply scrape_row_Some in H as [_ ->]. simpl.
  rewrite app_nil_r.
  set (category' := match row_th row with
                    | [text] => str_strip text
                    | _ => category
                    end).
  set (specs' := match row_th row with
                 | [text] =>
                     if bool_decide (is_Some (specs !! category')) then specs
                     else <[category' := ∅]> specs
                 | _ => specs
                 end).
  assert (specs_field specs' c k = specs_field specs c k) as Hsame.
  { subst specs'. destruct (row_th row) as [|t [|??]]; try done.
    case_bool_decide as Hc; [done|].
    rewrite specs_field_insert. case_decide as Heq; [|done].
    subst c. unfold specs_field.
    destruct (specs !! category') eqn:E; [|done]. by destruct Hc. }
  destruct (row_ttl row) as [|key [|??]]; simpl; try done.
  destruct (row_nfo row) as [|val [|??]]; simpl; try done.
  destruct (truthy category'); simpl; [|done].
  rewrite specs_field_insert.
  destruct (String.eqb_spec category' c) as [->|Hc]; simpl.
  - rewrite decide_True by done. rewrite lookup_insert.
    destruct (String.eqb_spec (str_strip key) k) as [->|Hk].
    + by rewrite decide_True.
    + rewrite decide_False by done. rewrite <-Hsame. unfold specs_field.
      by destruct (specs' !! c).
  - by rewrite decide_False.
Qed.

Lemma rows_entries_cons category row rows :
  rows_entries category (row :: rows)
  = rows_entries category [row]
    ++ rows_entries (match row_th row with
                     | [text] => str_strip text
                     | _ => category
                     end) rows.
Proof. simpl. by rewrite app_nil_r. Qed.

Lemma scrape_rows_field rows : ∀ category specs specs' c k,
  scrape_rows rows category specs = Some specs' ->
  specs_field specs' c k
  = match last_entry c k (rows_entries category rows) with
    | Some v => Some v
    | None => specs_field specs c k
    end.
Proof.
  induction rows as [|row rows IH]; intros category specs specs' c k.
  - by intros [= ->].
  - cbn [scrape_rows]. destruct (scrape_row category specs row) as [st|] eqn:E;
      [|done]. cbn [mbind option_bind]. intros H.
    pose proof (scrape_row_Some _ _ _ _ E) as [Hcat _]. cbv zeta in Hcat.
    rewrite rows_entries_cons, last_entry_app.
    rewrite (IH _ _ _ c k H), (scrape_row_field _ _ _ _ c k E), Hcat.
    by destruct (last_entry c k (rows_entries _ rows)).
Qed.

Lemma scrape_tables_field tables : ∀ specs specs' c k,
  scrape_tables tables specs = Some specs' ->
  specs_field specs' c k
  = match last_entry c k (page_entries tables) with
    | Some v => Some v
    | None => specs_field specs c k
    end.
Proof.
  induction tables as [|rows tables IH]; intros specs specs' c k.
  - by intros [= ->].
  - cbn [scrape_tables]. destruct (scrape_rows rows "" specs) as [specs1|] eqn:E;
      [|done]. cbn [mbind option_bind]. intros H.
    change (page_entries (rows :: tables))
      with (rows_entries "" rows ++ page_entries tables).
    rewrite last_entry_app, (IH _ _ c k H), (scrape_rows_field _ _ _ _ c k E).
    by destruct (last_entry c k (page_entries tables)).
Qed.

Lemma raw_field_specs url name image highlights specs category key :
  raw_field (RawRecord url name image highlights (Some specs)) category key
  = specs_field specs category key.
Proof. reflexivity. Qed.

Lemma scrape_page_Some url pg raw :
  scrape_page url pg = Some raw ->
  ∃ title specs,
    pg_title pg = [title]
    ∧ scrape_tables (pg_tables pg) ∅ = Some specs
    ∧ raw = RawRecord url (str_strip title) (scrape_image (pg_img_src pg))
                      (str_strip <$> pg_highlights pg) (Some specs).
Proof.
  unfold scrape_page. destruct (pg_title pg) as [|title [|??]]; try done.
  simpl. destruct (scrape_tables (pg_tables pg) ∅) as [specs|]; [|done].
  simpl. intros [= <-]. eauto.
Qed.

Lemma scrape_page_field url pg raw category key :
  scrape_page url pg = Some raw ->
  raw_field raw category key
  = last_entry category key (page_entries (pg_tables pg)).
Proof.
  intros (title & specs & _ & Hs & ->)%scrape_page_Some.
  rewrite raw_field_specs, (scrape_tables_field _ _ _ category key Hs).
  by destruct (last_entry category key (page_entries (pg_tables pg))).
Qed.

(** X1. The record [scrape_device] returns holds, for every category and
    key, the value of the last row of the page that carries them: a
    repeated key is overwritten, rows are filed under the header seen
    last in their own table, and a row met before any non-empty header of
    its table is not recorded. *)
Theorem scrape_page_last_row_wins (url : string) (pg : page) (raw : raw_record) :
  scrape_page url pg = Some raw ->
  ∀ category key,
    raw_field raw category key
    = last_entry category key (page_entries (pg_tables pg)).
Proof. intros Hs category key. by apply (scrape_page_field url pg). Qed.

Lemma scrape_page_last_row_wins_witness :
  ∃ raw, scrape_page "https://www.gsmarena.com/acme_one-1.php" sample_page
         = Some raw
    ∧ raw_field raw "BODY" "Weight" = Some "195 g"
    ∧ raw_field raw "BODY" "Weight"
      = last_entry "BODY" "Weight" (page_entries (pg_tables sample_page)).
Proof.
  eexists. split; [by vm_compute|]. split; [by vm_compute|].
  apply (scrape_page_last_row_wins
           "https://www.gsmarena.com/acme_one-1.php" sample_page).
  by vm_compute.
Defined.

(* ---------------------------------------------------------------- *)
(** ** Stripping twice *)

Lemma rstrip_by_idem p s : rstrip_by p (rstrip_by p s) = rstrip_by p s.
Proof.
  induction s as [|c s IH]; [done|]. simpl.
  destruct (rstrip_by p s) as [|d r] eqn:E.
  - destruct (p c) eqn:Hc; [done|]. simpl. by rewrite Hc.
  - cbn [rstrip_by]. cbn [rstrip_by] in IH. rewrite IH. done.
Qed.

Lemma rstrip_by_head p c s :
  p c = false -> ∃ t, rstrip_by p (String c s) = String c t.
Proof.
  intros Hc. simpl. destruct (rstrip_by p s); [|eauto]. rewrite Hc. eauto.
Qed.

Lemma lstrip_by_head p s :
  match lstrip_by p s with
  | "" => True
  | String c _ => p c = false
  end.
Proof.
  induction s as [|c s IH]; [done|]. simpl. by destruct (p c) eqn:Hc.
Qed.

Lemma strip_by_idem p s : strip_by p (strip_by p s) = strip_by p s.
Proof.
  unfold strip_by. pose proof (lstrip_by_head p s) as Hh.
  destruct (lstrip_by p s) as [|c u]; [done|].
  destruct (rstrip_by_head p c u Hh) as [t Ht]. rewrite Ht.
  rewrite lstrip_by_keep by done. by rewrite <-Ht, rstrip_by_idem.
Qed.

Lemma str_strip_idem s : str_strip (str_strip s) = str_strip s.
Proof. apply strip_by_idem. Qed.

(** A stripped text is never the lone non-breaking space. *)
Lemma str_strip_not_nbsp s : str_strip s ≠ nbsp.
Proof.
  intros H. pose proof (str_strip_idem s) as Hi. rewrite H in Hi.
  by vm_compute in Hi.
Qed.

(* ---------------------------------------------------------------- *)
(** ** What is stored *)

Lemma rows_entries_stripped rows : ∀ category c k v,
  str_strip category = category ->
  (c, k, v) ∈ rows_entries category rows ->
  str_strip c = c ∧ str_strip k = k ∧ str_strip v = v ∧ c ≠ "".
Proof.
  induction rows as [|row rows IH]; intros category c k v Hcat.
  - by intros ?%elem_of_nil.
  - rewrite rows_entries_cons. cbn [rows_entries]. rewrite app_nil_r.
    set (category' := match row_th row with
                      | [text] => str_strip text
                      | _ => category
                      end).
    assert (str_strip category' = category') as Hcat'.
    { subst category'. destruct (row_th row) as [|t [|??]]; try done.
      apply str_strip_idem. }
    rewrite elem_of_app. intros [Hin|Hin]; [|by apply (IH category')].
    destruct (row_ttl row) as [|key [|??]]; try by apply elem_of_nil in Hin.
    destruct (row_nfo row) as [|val [|??]]; try by apply elem_of_nil in Hin.
    destruct (truthy category') eqn:Ht; [|by apply elem_of_nil in Hin].
    apply list_elem_of_singleton in Hin as [= -> -> ->].
    rewrite !str_strip_idem. split_and!; try done.
    intros Hc. by rewrite Hc in Ht.
Qed.

Lemma page_entries_stripped tables c k v :
  (c, k, v) ∈ page_entries tables ->
  str_strip c = c ∧ str_strip k = k ∧ str_strip v = v ∧ c ≠ "".
Proof.
  unfold page_entries. rewrite list_elem_of_bind.
  intros (rows & Hin & _). by apply (rows_entries_stripped rows "").
Qed.

Lemma scrape_page_field_stripped url pg raw category key value :
  scrape_page url pg = Some raw ->
  raw_field raw category key = Some value ->
  category ≠ "" ∧ str_strip category = category
  ∧ str_strip key = key ∧ str_strip value = value ∧ key ≠ nbsp.
Proof.
  intros Hs Hf. rewrite (scrape_page_field _ _ _ _ _ Hs) in Hf.
  apply last_entry_elem, page_entries_stripped in Hf as (Hc & Hk & Hv & Hne).
  split_and!; try done. rewrite <-Hk. apply str_strip_not_nbsp.
Qed.

(** X2. Whatever [scrape_device] stores is stripped: every category that
    has an entry is non-empty and has no white space at either end, and so
    are every key and every value (which may be empty).  In particular no
    key is the lone non-breaking space that the site uses as the label of
    a continuation row: such a row is stored under the empty key. *)
Theorem scrape_page_stores_stripped (url : string) (pg : page) (raw : raw_record) :
  scrape_page url pg = Some raw ->
  ∀ category key value,
    raw_field raw category key = Some value ->
    category ≠ "" ∧ str_strip category = category
    ∧ str_strip key = key ∧ str_strip value = value ∧ key ≠ nbsp.
Proof.
  intros Hs category key value. by apply (scrape_page_field_stripped url pg).
Qed.

Lemma scrape_page_stores_stripped_witness :
  ∃ raw, scrape_page "https://www.gsmarena.com/acme_one-1.php" sample_page
         = Some raw
    ∧ raw_field raw "BODY" "" = Some "IP68 dust/water resistant"
    ∧ "BODY" ≠ "" ∧ str_strip "BODY" = "BODY" ∧ str_strip "" = ""
    ∧ str_strip "IP68 dust/water resistant" = "IP68 dust/water resistant"
    ∧ "" ≠ nbsp.
Proof.
  eexists. split; [by vm_compute|]. split; [by vm_compute|].
  eapply (scrape_page_stores_stripped
            "https://www.gsmarena.com/acme_one-1.php" sample_page);
    [by vm_compute|by vm_compute].
Defined.

(* ---------------------------------------------------------------- *)
(** ** Extraction followed by normalisation *)

Lemma scrape_page_no_nbsp_key url pg raw category :
  scrape_page url pg = Some raw -> raw_field raw category nbsp = None.
Proof.
  intros Hs. destruct (raw_field raw category nbsp) as [v|] eqn:E; [|done].
  by destruct (scrape_page_field_stripped _ _ _ _ _ _ Hs E) as (_ & _ & _ & _ & ?).
Qed.

(** X3. On a record that [scrape_device] extracted, a lookup with the key
    of two plain spaces (read as one non-breaking space) never finds
    anything, because the extractor has stripped that label to the empty
    key.  So the normaliser leaves "Additional microphone(s):" empty for
    every extracted page, and "Resistance:" is what BODY holds under the
    empty key. *)
Theorem scraped_nbsp_lookup_misses (url : string) (pg : page) (raw : raw_record) :
  scrape_page url pg = Some raw ->
  (∀ category dflt, get_spec raw category "  " dflt = dflt)
  ∧ ∃ out, transform_gsmarena_to_formatted raw = Ok out
      ∧ field out "Multimedia" "Additional microphone(s):" = Some ""
      ∧ field out "Design" "Resistance:"
        = Some (default "" (raw_field raw "BODY" "")).
Proof.
  intros Hs.
  assert (∀ category dflt, get_spec raw category "  " dflt = dflt) as Hmiss.
  { intros category dflt. rewrite get_spec_raw_field.
    change (two_spaces_to_nbsp "  ") with nbsp.
    by rewrite (scrape_page_no_nbsp_key _ _ _ _ Hs). }
  split; [done|].
  destruct (transform_Ok raw) as (cam & bat & disp & hw & _ & _ & _ & _ & Ht).
  eexists. split; [exact Ht|]. split.
  - change (field _ "Multimedia" "Additional microphone(s):")
      with (Some (if str_contains "dedicated mic"
                       (str_lower (get_spec raw "SOUND" "  " ""))
                  then "Noise cancellation" else "")).
    by rewrite Hmiss.
  - change (field _ "Design" "Resistance:")
      with (Some (py_or (get_spec raw "BODY" "  " "")
                        (get_spec raw "BODY" "" ""))).
    rewrite Hmiss. by rewrite get_spec_raw_field.
Qed.

Lemma scraped_nbsp_lookup_misses_witness :
  ∃ raw, scrape_page "https://www.gsmarena.com/acme_one-1.php" sample_page
         = Some raw
    ∧ raw_field raw "SOUND" "" = Some "24-bit audio, dedicated mic"
    ∧ (∀ category dflt, get_spec raw category "  " dflt = dflt)
    ∧ ∃ out, transform_gsmarena_to_formatted raw = Ok out
        ∧ field out "Multimedia" "Additional microphone(s):" = Some ""
        ∧ field out "Design" "Resistance:"
          = Some (default "" (raw_field raw "BODY" "")).
Proof.
  eexists. split; [by vm_compute|]. split; [by vm_compute|].
  apply (scraped_nbsp_lookup_misses
           "https://www.gsmarena.com/acme_one-1.php" sample_page).
  by vm_compute.
Defined.

(* ---------------------------------------------------------------- *)
(** ** When the extraction succeeds *)

Lemma scrape_row_single category specs row :
  single_cells row ->
  (category ≠ "" -> is_Some (specs !! category)) ->
  ∃ st, scrape_row category specs row = Some st
      ∧ (st.1 ≠ "" -> is_Some (st.2 !! st.1)).
Proof.
  intros (Hth & Httl & Hnfo) Hinv. unfold scrape_row.
  destruct row as [ths ttls nfos]. simpl in *.
  destruct ths as [|t [|??]]; simpl in *; [| |lia].
  - destruct ttls as [|k [|??]]; simpl in *; [eauto| |lia].
    destruct nfos as [|v [|??]]; simpl in *; [eauto| |lia].
    destruct category as [|a category]; simpl; [eauto|].
    destruct (Hinv ltac:(done)) as [entries ->]. simpl.
    eexists. split; [done|]. simpl. intros _. rewrite lookup_insert_eq. eauto.
  - set (category' := str_strip t).
    set (specs' := if bool_decide (is_Some (specs !! category')) then specs
                   else <[category' := ∅]> specs).
    assert (is_Some (specs' !! category')) as [entries He].
    { subst specs'. case_bool_decide; [done|]. rewrite lookup_insert_eq. eauto. }
    destruct ttls as [|k [|??]]; simpl in *; [eauto| |lia].
    destruct nfos as [|v [|??]]; simpl in *; [eauto| |lia].
    destruct (truthy category'); simpl; [|eauto].
    rewrite He. simpl. eexists. split; [done|]. simpl. intros _.
    rewrite lookup_insert_eq. eauto.
Qed.

Lemma scrape_rows_single rows : ∀ category specs,
  Forall single_cells rows ->
  (category ≠ "" -> is_Some (specs !! category)) ->
  is_Some (scrape_rows rows category specs).
Proof.
  induction rows as [|row rows IH]; intros category specs Hall Hinv; [by eexists|].
  apply Forall_cons in Hall as [Hrow Hall]. cbn [scrape_rows].
  destruct (scrape_row_single category specs row Hrow Hinv) as (st & -> & Hst).
  cbn [mbind option_bind]. by apply IH.
Qed.

Lemma scrape_tables_single tables : ∀ specs,
  Forall (Forall single_cells) tables -> is_Some (scrape_tables tables specs).
Proof.
  induction tables as [|rows tables IH]; intros specs Hall; [by eexists|].
  apply Forall_cons in Hall as [Hrows Hall]. cbn [scrape_tables].
  destruct (scrape_rows_single rows "" specs Hrows ltac:(done)) as [specs' ->].
  cbn [mbind option_bind]. by apply IH.
Qed.

(** X4. Once the page is loaded with exactly one title, and no table row
    has two header, label or value cells, [scrape_device] returns a
    record: [specs[category][key] = val] never raises [KeyError], since a
    non-empty current category has always been entered into [specs]
    first.  The record carries the URL it was asked for, the stripped
    title as its name and the stripped spotlight items. *)
Theorem scrape_page_succeeds (url title : string) (pg : page) :
  pg_title pg = [title] ->
  Forall (Forall single_cells) (pg_tables pg) ->
  ∃ raw, scrape_page url pg = Some raw
    ∧ raw_url raw = url
    ∧ raw_name raw = str_strip title
    ∧ raw_highlights raw = str_strip <$> pg_highlights pg
    ∧ is_Some (raw_specs raw).
Proof.
  intros Ht Hall. unfold scrape_page. rewrite Ht. simpl.
  destruct (scrape_tables_single (pg_tables pg) ∅ Hall) as [specs ->]. simpl.
  eexists. split; [done|]. simpl. split_and!; eauto.
Qed.

Lemma scrape_page_succeeds_witness :
  ∃ raw, scrape_page "https://www.gsmarena.com/acme_one-1.php" sample_page
         = Some raw
    ∧ raw_url raw = "https://www.gsmarena.com/acme_one-1.php"
    ∧ raw_name raw = str_strip " Acme One "
    ∧ raw_highlights raw = str_strip <$> pg_highlights sample_page
    ∧ is_Some (raw_specs raw).
Proof.
  apply (scrape_page_succeeds "https://www.gsmarena.com/acme_one-1.php"
           " Acme One " sample_page).
  - reflexivity.
  - repeat constructor.
Defined.





(* ---------------------------------------------------------------- *)
(** ** File names *)

Lemma replace_space_cons c s :
  replace_go " " "_" 0 (String c s)
  = String (if ascii_dec " " c then "_"%char else c) (replace_go " " "_" 0 s).
Proof.
  rewrite replace_go_0, prefix_cons, prefix_nil.
  by destruct (ascii_dec " " c).
Qed.

Lemma replace_space_chars s c :
  c ∈ list_ascii_of_string (str_replace " " "_" s) ->
  c ≠ " "%char ∧ (c = "_"%char ∨ c ∈ list_ascii_of_string s).
Proof.
  change (str_replace " " "_" s) with (replace_go " " "_" 0 s).
  induction s as [|d s IH]; [by intros ?%elem_of_nil|].
  rewrite replace_space_cons. cbn [list_ascii_of_string].
  intros [->|Hin]%elem_of_cons.
  - destruct (ascii_dec " " d) as [<-|Hd]; [split; [done|by left]|].
    split; [congruence|]. right. by left.
  - destruct (IH Hin) as [? [?|?]]; [by auto|]. split; [done|]. right. by right.
Qed.

Lemma replace_space_id s :
  " "%char ∉ list_ascii_of_string s -> str_replace " " "_" s = s.
Proof.
  change (str_replace " " "_" s) with (replace_go " " "_" 0 s).
  induction s as [|d s IH]; [done|].
  cbn [list_ascii_of_string]. intros Hn. rewrite replace_space_cons.
  apply not_elem_of_cons in Hn as [Hd Hn].
  destruct (ascii_dec " " d); [done|]. by rewrite IH.
Qed.

Lemma remove_chars_elem p s c :
  c ∈ list_ascii_of_string (remove_chars p s)
  ↔ c ∈ list_ascii_of_string s ∧ p c = false.
Proof.
  induction s as [|d s IH]; cbn [remove_chars list_ascii_of_string].
  - split; [by intros ?%elem_of_nil|by intros [?%elem_of_nil _]].
  - destruct (p d) eqn:Hd; cbn [list_ascii_of_string].
    + rewrite IH, elem_of_cons. split; [intros [? ?]; auto|].
      intros [[->|?] ?]; [congruence|done].
    + rewrite !elem_of_cons, IH. split.
      * intros [->|[? ?]]; auto.
      * intros [[->|?] ?]; auto.
Qed.

Lemma remove_chars_id p s :
  (∀ c, c ∈ list_ascii_of_string s -> p c = false) -> remove_chars p s = s.
Proof.
  induction s as [|d s IH]; [done|]. cbn [remove_chars list_ascii_of_string].
  intros H. rewrite (H d) by by left. rewrite IH; [done|].
  intros c Hc. apply H. by right.
Qed.

Lemma safe_name_elem name c :
  c ∈ list_ascii_of_string (safe_name_of name) ->
  reserved_char c = false ∧ c ≠ " "%char
  ∧ (c = "_"%char ∨ c ∈ list_ascii_of_string name).
Proof.
  unfold safe_name_of. intros [Hsp [->|Hin]]%replace_space_chars.
  - split_and!; [done|done|by left].
  - apply remove_chars_elem in Hin as [Hin Hr]. split_and!; [done|done|by right].
Qed.

(** X6. The file-name stem [safe_name] of an item holds none of the
    characters backslash, slash, star, question mark, colon, double
    quote, angle brackets, bar and space: each of its characters is an
    underscore or a character of the device name.  Making a stem out of a
    stem changes nothing, so a device whose name is the stem of another
    device's name is written to the same files. *)
Theorem safe_name_of_clean (name : string) :
  (∀ c, c ∈ list_ascii_of_string (safe_name_of name) ->
        reserved_char c = false ∧ c ≠ " "%char
        ∧ (c = "_"%char ∨ c ∈ list_ascii_of_string name))
  ∧ safe_name_of (safe_name_of name) = safe_name_of name.
Proof.
  split; [apply safe_name_elem|].
  unfold safe_name_of at 1.
  rewrite remove_chars_id by (by intros c (? & _)%safe_name_elem).
  apply replace_space_id. by intros (_ & ? & _)%safe_name_elem.
Qed.

(* ---------------------------------------------------------------- *)
(** ** The ledger, exactly *)





(* ---------------------------------------------------------------- *)
(** ** A run, item by item *)

Section MainFacts.
Variable all_links : list string.
Variable scrape_device : string -> option raw_record.
Variable can_write : string -> bool.
Variable splitext_ext : string -> string.

Abbreviation process' := (process_link scrape_device can_write splitext_ext).
Abbreviation loop' := (scrape_loop scrape_device can_write splitext_ext).
Abbreviation run := (main all_links scrape_device can_write splitext_ext).












End MainFacts.





(** The link found twice is recorded and notified twice. *)
Example duplicate_link_is_processed_twice :
  let w' := (main links_with_duplicate two_pages (λ _, true) no_extension
               headed_world).2 in
  w_csv w'
  = Some [ ["Device Name"; "URL"];
           ["Acme One"; "https://www.gsmarena.com/acme_one-1.php"];
           ["Acme Two"; "https://www.gsmarena.com/acme_two-2.php"];
           ["Acme Two"; "https://www.gsmarena.com/acme_two-2.php"] ]
  ∧ length (w_notified w') = 3.
Proof. split; by vm_compute. Qed.

(* ---------------------------------------------------------------- *)
(** ** The link finder *)

(** X12. Every link that [scrape_latest_device_links] returns is the
    site's address followed by the non-empty [href] of one of the
    anchors, as it is written in the page: an anchor without [href] or
    with an empty one gives no link, and an [href] that is already a full
    address is put behind the site's address all the same. *)
Theorem device_links_are_prefixed_hrefs
    (anchors : option (list (option string))) (link : string) :
  link ∈ scrape_latest_device_links anchors ->
  ∃ links href,
    anchors = Some links ∧ Some href ∈ links ∧ href ≠ ""
    ∧ link = "https://www.gsmarena.com/" +:+ href.
Proof.
  destruct anchors as [links|]; [|by intros ?%elem_of_nil].
  unfold scrape_latest_device_links.
  destruct links as [|l ls] eqn:Hl; [by intros ?%elem_of_nil|]. rewrite <-Hl.
  intros (a & -> & [Ha Hin]%list_elem_of_filter)%list_elem_of_fmap.
  destruct a as [href|]; [|done].
  exists links, href. split_and!; [done|done| |done].
  intros ->. done.
Qed.

Lemma device_links_are_prefixed_hrefs_witness :
  let anchors :=
    Some [Some "acme_one-1.php"; None; Some "";
          Some "https://www.gsmarena.com/acme_two-2.php"] in
  let link :=
    "https://www.gsmarena.com/https://www.gsmarena.com/acme_two-2.php" in
  link ∈ scrape_latest_device_links anchors
  ∧ ∃ links href,
      anchors = Some links ∧ Some href ∈ links ∧ href ≠ ""
      ∧ link = "https://www.gsmarena.com/" +:+ href.
Proof.
  split; [apply (bool_decide_unpack _); by vm_compute|].
  apply (device_links_are_prefixed_hrefs
           (Some [Some "acme_one-1.php"; None; Some "";
                  Some "https://www.gsmarena.com/acme_two-2.php"])).
  apply (bool_decide_unpack _). by vm_compute.
Defined.

(* ---------------------------------------------------------------- *)
(** ** The characters of a string *)

Lemma chars_app s1 s2 :
  list_ascii_of_string (s1 +:+ s2)
  = list_ascii_of_string s1 ++ list_ascii_of_string s2.
Proof.
  induction s1 as [|a s1 IH]; [done|].
  rewrite str_app_cons. simpl. by rewrite IH.
Qed.

Lemma lstrip_by_chars p s c :
  c ∈ list_ascii_of_string (lstrip_by p s) -> c ∈ list_ascii_of_string s.
Proof.
  induction s as [|a s IH]; [done|]. simpl.
  destruct (p a); [|done]. intros ?. right. auto.
Qed.

Lemma rstrip_by_chars p s c :
  c ∈ list_ascii_of_string (rstrip_by p s) -> c ∈ list_ascii_of_string s.
Proof.
  induction s as [|a s IH]; [done|]. simpl.
  destruct (rstrip_by p s) as [|b r].
  - destruct (p a); [by intros ?%elem_of_nil|].
    simpl. intros ->%list_elem_of_singleton. by left.
  - simpl in *. intros [->|?]%elem_of_cons; [by left|]. right. auto.
Qed.

Lemma str_strip_chars_subset s c :
  c ∈ list_ascii_of_string (str_strip s) -> c ∈ list_ascii_of_string s.
Proof. intros ?%rstrip_by_chars%lstrip_by_chars. done. Qed.

(** The first piece of a split is the text before the first separator. *)
Lemma str_split_head sep s :
  (sep ∉ list_ascii_of_string (hd "" (str_split sep s)))
  ∧ (s = hd "" (str_split sep s)
     ∨ ∃ rest, s = hd "" (str_split sep s) +:+ String sep rest).
Proof.
  induction s as [|c s [IH1 IH2]]; simpl.
  - split; [by intros ?%elem_of_nil|by left].
  - destruct (Ascii.eqb_spec c sep) as [->|Hc].
    + simpl. split; [by intros ?%elem_of_nil|]. right. by exists s.
    + destruct (str_split_cons sep s) as (h & t & Hs). rewrite Hs in *.
      simpl in *. split.
      * intros [?|?]%elem_of_cons; [congruence|done].
      * destruct IH2 as [->|[rest ->]]; [by left|right].
        exists rest. by rewrite str_app_cons.
Qed.

(* ---------------------------------------------------------------- *)
(** ** More of the display section *)

(** X13. Display "Technology:" is the text of DISPLAY/Type before its
    first comma, as it stands (white space around it is kept), and
    "Size:" is the text of DISPLAY/Size before its first comma with the
    white space at both ends removed; neither holds a comma. *)
Theorem display_size_and_technology (data : raw_record) :
  let size := get_spec data "DISPLAY" "Size" "" in
  let type := get_spec data "DISPLAY" "Type" "" in
  ∃ out size0 type0,
    transform_gsmarena_to_formatted data = Ok out
    ∧ (size = size0 ∨ ∃ rest, size = size0 +:+ String "," rest)
    ∧ (type = type0 ∨ ∃ rest, type = type0 +:+ String "," rest)
    ∧ (","%char ∉ list_ascii_of_string size0)
    ∧ (","%char ∉ list_ascii_of_string type0)
    ∧ field out "Display" "Size:" = Some (str_strip size0)
    ∧ field out "Display" "Technology:" = Some type0
    ∧ (","%char ∉ list_ascii_of_string (str_strip size0))
    ∧ str_strip (str_strip size0) = str_strip size0.
Proof.
  intros size type.
  destruct (transform_Ok data) as (cam & bat & disp & hw & _ & _ & _ & _ & Ht).
  destruct (display_fields _ _ Ht) as (disp' & Hd & Hf).
  rewrite display_section_eq in Hd. injection Hd as <-.
  fold size type in Hf.
  destruct (str_split_head "," size) as [Hs1 Hs2].
  destruct (str_split_head "," type) as [Ht1 Ht2].
  eexists _, (hd "" (str_split "," size)), (hd "" (str_split "," type)).
  split; [exact Ht|].
  split_and!; [done|done|done|done| | | |].
  - rewrite Hf. reflexivity.
  - rewrite Hf. reflexivity.
  - by intros ?%str_strip_chars_subset.
  - apply str_strip_idem.
Qed.

(** X14. Display "Screen-to-body:" is empty when DISPLAY/Size has no
    part of the form [(\d+(\.\d+)?%)\s*\(screen-to-body ratio\)];
    otherwise it is the number of the first such part with its percent
    sign, followed by a space and a second percent sign. *)
Theorem screen_to_body_form (data : raw_record) :
  let size := get_spec data "DISPLAY" "Size" "" in
  ∃ out,
    transform_gsmarena_to_formatted data = Ok out
    ∧ match re_search s2b_re size with
      | Some m =>
          ∃ number,
            lang false (number_re 2) number
            ∧ group_text m 1 = number +:+ "%"
            ∧ field out "Display" "Screen-to-body:" = Some (number +:+ "% %")
      | None => field out "Display" "Screen-to-body:" = Some ""
      end.
Proof.
  intros size.
  destruct (transform_Ok data) as (cam & bat & disp & hw & _ & _ & _ & _ & Ht).
  destruct (display_fields _ _ Ht) as (disp' & Hd & Hf).
  rewrite display_section_eq in Hd. injection Hd as <-.
  fold size in Hf.
  eexists. split; [exact Ht|].
  assert (field _ "Display" "Screen-to-body:"
          = Some (match re_search s2b_re size with
                  | Some m => group_text m 1 +:+ " %"
                  | None => ""
                  end)) as Hs by (rewrite Hf; reflexivity).
  destruct (re_search s2b_re size) as [m|] eqn:E; [|done].
  apply group1_head in E as (g & t & Hg & _ & Hl & _); [|set_solver].
  inversion Hl as [| | | |? ? w1 w23 H1 H23| | | | | | | |]; subst.
  inversion H23 as [| | | |? ? w2 w3 H2 H3| | | | | | | |]; subst.
  apply (lang_Lit_exact "%") in H3 as ->.
  exists (w1 +:+ w2). rewrite Hs, (group_text_Some _ _ _ Hg).
  split_and!.
  - by constructor.
  - by rewrite str_app_assoc.
  - by rewrite !str_app_assoc.
Qed.

Example screen_to_body_scenario :
  ∃ out,
    transform_gsmarena_to_formatted
      (record_of {[ "DISPLAY" :=
                      {[ "Size" := "6.7 inches, 89.5% (screen-to-body ratio)" ]} ]})
    = Ok out
    ∧ field out "Display" "Screen-to-body:" = Some "89.5% %"
    ∧ field out "Display" "Size:" = Some "6.7 inches".
Proof. eexists. split; [by vm_compute|]. split; by vm_compute. Qed.

(* ---------------------------------------------------------------- *)
(** ** What matched text is made of *)

Lemma lang_over P r w :
  regex_over P r -> lang false r w -> Forall P (list_ascii_of_string w).
Proof.
  intros Hr Hl. induction Hl as
    [a x Hx|x Hx|x Hx| |r1 r2 w1 w2 _ IH1 _ IH2|r1 r2 w _ IH|r1 r2 w _ IH
    |r|r w1 w2 _ IH1 _ IH2|r w1 w2 _ IH1 _ IH2|r|r w _ IH|n r w _ IH];
    simpl in Hr |- *; rewrite ?chars_app.
  - simpl in Hx. apply Ascii.eqb_eq in Hx as ->. by repeat constructor.
  - repeat constructor. auto.
  - repeat constructor. auto.
  - constructor.
  - destruct Hr. apply Forall_app. auto.
  - destruct Hr. auto.
  - destruct Hr. auto.
  - constructor.
  - apply Forall_app. auto.
  - apply Forall_app. auto.
  - constructor.
  - auto.
  - auto.
Qed.

Lemma upper_char_digit c :
  isdigit c = true ∨ c = "."%char -> upper_char c = String c "".
Proof.
  intros [H| ->]; [|done]. revert H.
  destruct c as [[] [] [] [] [] [] [] []]; by vm_compute.
Qed.

Lemma str_upper_number s :
  Forall (λ c, isdigit c = true ∨ c = "."%char) (list_ascii_of_string s) ->
  str_upper s = s.
Proof.
  induction s as [|c s IH]; [done|]. simpl.
  intros [Hc Hs]%Forall_cons. rewrite (upper_char_digit c Hc), IH by done.
  by rewrite str_app_cons, str_app_nil_l.
Qed.

Lemma number_re_chars n w :
  lang false (number_re n) w ->
  Forall (λ c, isdigit c = true ∨ c = "."%char) (list_ascii_of_string w).
Proof.
  apply lang_over. simpl. split_and!; auto.
Qed.

Lemma aperture_text w :
  lang false aperture_re w ->
  ∃ number, w = "f/" +:+ number ∧ lang false (number_re 1) number
          ∧ str_upper w = "F/" +:+ number.
Proof.
  inversion 1 as [| | | |? ? w1 w2 H1 H2| | | | | | | |]; subst.
  apply (lang_Lit_exact "f/") in H1 as ->.
  exists w2. split_and!; [done|done|].
  rewrite !str_app_cons, str_app_nil_l. cbn [str_upper].
  rewrite (str_upper_number w2) by by eapply number_re_chars.
  reflexivity.
Qed.

(* ---------------------------------------------------------------- *)
(** ** More of the camera section *)

Lemma camera_section_fields data out :
  transform_gsmarena_to_formatted data = Ok out ->
  ∃ cam, camera_section data = Ok cam
       ∧ ∀ label, field out "Camera" label = dict_lookup cam label.
Proof.
  destruct (transform_Ok data) as (cam & bat & disp & hw & Hc & _ & _ & _ & Ht).
  rewrite Ht. intros [= <-]. by exists cam.
Qed.

Lemma plain_section_fields data out :
  transform_gsmarena_to_formatted data = Ok out ->
  ∀ label,
    field out "Design" label = dict_lookup (design_section data) label
    ∧ field out "Cellular" label = dict_lookup (cellular_section data) label
    ∧ field out "Multimedia" label
      = dict_lookup (multimedia_section data) label
    ∧ field out "Connectivity & Features" label
      = dict_lookup (connectivity_section data) label.
Proof.
  destruct (transform_Ok data) as (cam & bat & disp & hw & _ & _ & _ & _ & Ht).
  rewrite Ht. intros [= <-]. done.
Qed.

(** X15. The lines of the rear camera descriptor: "Second camera:" and
    "Third camera:" are its second and third lines with the white space
    at their ends removed, empty when the descriptor has no such line;
    lines after the third are read by no field.  "Specifications:" is
    made from the first line alone: the first [f/\d+(\.\d+)?] in it, with
    its [f] turned into a capital, behind "Aperture size: ", and the
    first [\d+\s*mm] behind "Focal Length: ", the parts that are there
    being joined by one space. *)
Theorem camera_lines_and_specifications (data : raw_record) :
  let cam_specs := str_strip <$> str_split newline (main_cam_spec data) in
  let line := nth 0 cam_specs "" in
  ∃ out aperture focal,
    transform_gsmarena_to_formatted data = Ok out
    ∧ field out "Camera" "Main camera:" = Some line
    ∧ field out "Camera" "Second camera:" = Some (nth 1 cam_specs "")
    ∧ field out "Camera" "Third camera:" = Some (nth 2 cam_specs "")
    ∧ field out "Camera" "Specifications:"
      = Some (str_join " " (aperture ++ focal))
    ∧ match re_search aperture_re line with
      | Some m =>
          ∃ number, mo_text m = "f/" +:+ number
                  ∧ lang false (number_re 1) number
                  ∧ aperture = ["Aperture size: F/" +:+ number]
      | None => aperture = []
      end
    ∧ match re_search focal_length_re line with
      | Some m => focal = ["Focal Length: " +:+ mo_text m]
      | None => focal = []
      end.
Proof.
  intros cam_specs line.
  destruct (transform_Ok data) as (cam & bat & disp & hw & _ & _ & _ & _ & Ht).
  destruct (camera_section_fields _ _ Ht) as (cam' & Hc & Hf).
  rewrite camera_section_eq in Hc. injection Hc as <-.
  fold cam_specs in Hf. fold line in Hf.
  eexists _, _, _. split; [exact Ht|].
  split; [rewrite Hf; reflexivity|].
  split; [rewrite Hf; reflexivity|].
  split; [rewrite Hf; reflexivity|].
  split; [rewrite Hf; reflexivity|].
  split; [|by destruct (re_search focal_length_re line)].
  pose proof (re_search_spec false aperture_re line) as Hs.
  unfold search_spec in Hs. fold (re_search aperture_re line) in Hs.
  destruct (re_search aperture_re line) as [m|]; [|done].
  destruct Hs as (pre & _ & Hl & _).
  apply aperture_text in Hl as (number & Hm & Hn & Hu).
  exists number. rewrite Hu. by rewrite <-str_app_assoc.
Qed.

Example camera_lines_scenario :
  ∃ out,
    transform_gsmarena_to_formatted battery_record_b = Ok out
    ∧ field out "Camera" "Rear:" = Some "50 MP, f/1.8, 24mm (wide)"
    ∧ field out "Camera" "Second camera:" = Some "12 MP, f/2.2 (ultrawide)"
    ∧ field out "Camera" "Third camera:" = Some ""
    ∧ field out "Camera" "Specifications:"
      = Some "Aperture size: F/1.8 Focal Length: 24mm".
Proof. eexists. split; [by vm_compute|]. split_and!; by vm_compute. Qed.

(** X16. Camera "Front:" is SELFIE CAMERA/Single when that is not empty,
    and SELFIE CAMERA/Dual otherwise: for the front camera the single
    module is tried first, the other way round than for the rear
    camera. *)
Theorem front_camera_single_first (data : raw_record) :
  let single := get_spec data "SELFIE CAMERA" "Single" "" in
  let dual := get_spec data "SELFIE CAMERA" "Dual" "" in
  ∃ out,
    transform_gsmarena_to_formatted data = Ok out
    ∧ field out "Camera" "Front:" = Some (first_nonempty [single; dual])
    ∧ (single ≠ "" -> field out "Camera" "Front:" = Some single)
    ∧ (single = "" -> field out "Camera" "Front:" = Some dual).
Proof.
  intros single dual.
  destruct (transform_Ok data) as (cam & bat & disp & hw & _ & _ & _ & _ & Ht).
  destruct (camera_section_fields _ _ Ht) as (cam' & Hc & Hf).
  rewrite camera_section_eq in Hc. injection Hc as <-.
  eexists. split; [exact Ht|].
  assert (field _ "Camera" "Front:" = Some (py_or single dual)) as ->
    by (rewrite Hf; reflexivity).
  unfold py_or. simpl. split_and!.
  - by destruct single, dual.
  - by destruct single.
  - by intros ->.
Qed.

(* ---------------------------------------------------------------- *)
(** ** The connectivity section *)

(** X17. Connectivity "Other:" lists "NFC" when COMMS/NFC holds any text
    at all, and "Infrared" when COMMS/"Infrared port" does, in that
    order and joined by a comma and a space: the text itself is not
    looked at, so a device whose NFC entry says "No" is listed with
    NFC. *)
Theorem other_features_listing (data : raw_record) :
  let nfc := get_spec data "COMMS" "NFC" "" in
  let infrared := get_spec data "COMMS" "Infrared port" "" in
  ∃ out,
    transform_gsmarena_to_formatted data = Ok out
    ∧ field out "Connectivity & Features" "Other:"
      = Some (match truthy nfc, truthy infrared with
              | true, true => "NFC, Infrared"
              | true, false => "NFC"
              | false, true => "Infrared"
              | false, false => ""
              end)
    ∧ (nfc = "No" -> infrared = "" ->
       field out "Connectivity & Features" "Other:" = Some "NFC").
Proof.
  intros nfc infrared.
  destruct (transform_Ok data) as (cam & bat & disp & hw & _ & _ & _ & _ & Ht).
  destruct (plain_section_fields _ _ Ht "Other:") as (_ & _ & _ & Hf).
  eexists. split; [exact Ht|]. rewrite Hf.
  unfold connectivity_section. fold nfc infrared.
  split.
  - by destruct (truthy nfc), (truthy infrared).
  - by intros -> ->.
Qed.

(** X18. Fields that are copies of one raw field: Design "Biometrics:",
    Display "Features:" and Connectivity "Sensors:" all hold
    FEATURES/Sensors, and Connectivity "Features:" holds COMMS/USB as
    Connectivity "USB:" does. *)
Theorem fields_sharing_a_source (data : raw_record) :
  ∃ out,
    transform_gsmarena_to_formatted data = Ok out
    ∧ field out "Design" "Biometrics:"
      = Some (get_spec data "FEATURES" "Sensors" "")
    ∧ field out "Display" "Features:" = field out "Design" "Biometrics:"
    ∧ field out "Connectivity & Features" "Sensors:"
      = field out "Design" "Biometrics:"
    ∧ field out "Connectivity & Features" "USB:"
      = Some (get_spec data "COMMS" "USB" "")
    ∧ field out "Connectivity & Features" "Features:"
      = field out "Connectivity & Features" "USB:".
Proof.
  destruct (transform_Ok data) as (cam & bat & disp & hw & _ & _ & _ & _ & Ht).
  destruct (display_fields _ _ Ht) as (disp' & Hd & Hf).
  rewrite display_section_eq in Hd. injection Hd as <-.
  destruct (plain_section_fields _ _ Ht "Biometrics:") as (Hb & _).
  destruct (plain_section_fields _ _ Ht "Sensors:") as (_ & _ & _ & Hs).
  destruct (plain_section_fields _ _ Ht "USB:") as (_ & _ & _ & Hu).
  destruct (plain_section_fields _ _ Ht "Features:") as (_ & _ & _ & Hfe).
  eexists. split; [exact Ht|].
  rewrite Hb, Hs, Hu, Hfe, Hf. split_and!; reflexivity.
Qed.

(* ---------------------------------------------------------------- *)
(** ** Each field reads its own raw fields only *)






(* ---------------------------------------------------------------- *)
(** ** Keys with two adjacent spaces *)

Lemma contains_two_spaces_cons c s :
  str_contains "  " (String c s)
  = String.prefix "  " (String c s) || str_contains "  " s.
Proof. reflexivity. Qed.

Lemma two_spaces_gone_lt n :
  ∀ key, String.length key < n ->
    str_contains "  " (two_spaces_to_nbsp key) = false.
Proof.
  induction n as [|n IH]; intros key Hlen; [lia|].
  destruct key as [|c [|d key]]; [done| |].
  - rewrite two_spaces_single, contains_two_spaces_cons, prefix_cons.
    by destruct (ascii_dec " " c).
  - simpl in Hlen. destruct (ascii_dec " " c) as [<-|Hc].
    + destruct (ascii_dec " " d) as [<-|Hd].
      * change (two_spaces_to_nbsp (String " " (String " " key)))
          with (String "160" (two_spaces_to_nbsp key)).
        rewrite contains_two_spaces_cons, prefix_cons.
        destruct (ascii_dec " " "160"); [done|]. apply IH. lia.
      * rewrite two_spaces_one by done.
        rewrite contains_two_spaces_cons, IH by (simpl; lia).
        rewrite two_spaces_other by done. rewrite !prefix_cons.
        destruct (ascii_dec " " " "); [|done].
        by destruct (ascii_dec " " d).
    + rewrite two_spaces_other by done.
      rewrite contains_two_spaces_cons, IH by (simpl; lia).
      rewrite prefix_cons. by destruct (ascii_dec " " c).
Qed.

Lemma two_spaces_id_lt n :
  ∀ key, String.length key < n ->
    str_contains "  " key = false -> two_spaces_to_nbsp key = key.
Proof.
  induction n as [|n IH]; intros key Hlen; [lia|].
  destruct key as [|c [|d key]]; [done|by rewrite two_spaces_single|].
  simpl in Hlen. rewrite contains_two_spaces_cons.
  intros [Hp Hc]%orb_false_elim. rewrite !prefix_cons, prefix_nil in Hp.
  destruct (ascii_dec " " c) as [<-|Hnc].
  - destruct (ascii_dec " " d) as [<-|Hd]; [done|].
    rewrite two_spaces_one by done. f_equal. apply IH; [simpl; lia|done].
  - rewrite two_spaces_other by done. f_equal. apply IH; [simpl; lia|done].
Qed.

(** X20. The key that [get_spec] looks up never holds two adjacent plain
    spaces, so a value that a record stores under such a key is read by
    no field; a key that is asked for without two adjacent spaces is
    looked up as it is. *)
Theorem get_spec_key_has_no_double_space (data : raw_record)
    (category key dflt : string) :
  ∃ stored_key,
    str_contains "  " stored_key = false
    ∧ get_spec data category key dflt
      = default dflt (raw_field data category stored_key)
    ∧ (str_contains "  " key = false -> stored_key = key).
Proof.
  exists (two_spaces_to_nbsp key). split_and!.
  - apply (two_spaces_gone_lt (S (String.length key))). lia.
  - apply get_spec_raw_field.
  - apply (two_spaces_id_lt (S (String.length key))). lia.
Qed.
